(** * Sugeno fuzzy simulator: a shallow embedding of [fuzzy.py] and
    [evaluation.py], and the properties of the inference pipeline.

    Numbers.  Python floats (and the NumPy scalars the membership functions
    return) are embedded as exact rationals [Q]: [0.6] is [3 # 5], [0.2] is
    [1 # 5], and [round(v, 2)] is rounding to the nearest multiple of
    [1/100] with ties to the even one.  The code rounds the double it has
    computed, not the exact quotient: where the exact quotient is half way
    between two hundredths, or within a rounding error of it, the code may
    return the other neighbour, and no statement below says which.  What
    exact rationals cannot hold is
    kept apart: a NumPy division by a zero divisor does not raise, it yields
    [inf] or [nan]; such a value, and everything computed from one, is the
    single value [NonFinite] of [pyval].  Python's [None] (a function that
    falls off its last [elif]) is [PyNone], and a raised exception is the
    [Raise] outcome. *)

From Stdlib Require Import QArith Qround Qminmax Qabs ZArith Lia Lqa Ascii String.
From stdpp Require Import base option list strings gmap.

Local Open Scope Q_scope.

(** ** Python values and outcomes *)

Inductive pyval : Type :=
| Num (q : Q)
| NonFinite
| PyNone.

Inductive exn : Type := ValueError | TypeError | KeyError.

Inductive outcome (A : Type) : Type :=
| Ret (a : A)
| Raise (e : exn).

Arguments Ret {A} a.
Arguments Raise {A} e.

#[global] Instance outcome_ret : MRet outcome := @Ret.
#[global] Instance outcome_bind : MBind outcome :=
  fun A B f m => match m with Ret a => f a | Raise e => Raise e end.

(** [d[k]] on a dict: [KeyError] when the key is absent. *)
Definition getitem {V : Type} (d : gmap string V) (k : string) : outcome V :=
  match d !! k with
  | Some v => Ret v
  | None => Raise KeyError
  end.

(** ** Comparisons and arithmetic *)

Definition Qlt_bool (x y : Q) : bool := negb (Qle_bool y x).

(** NumPy [n / d]: no exception on a zero divisor, but [inf] or [nan]. *)
Definition np_div (n d : Q) : pyval :=
  if Qeq_bool d 0 then NonFinite else Num (n / d).

(** [v * w] for a float [w]. *)
Definition py_mul (v : pyval) (w : Q) : outcome pyval :=
  match v with
  | Num q => Ret (Num (q * w))
  | NonFinite => Ret NonFinite
  | PyNone => Raise TypeError
  end.

Definition py_add (v w : pyval) : outcome pyval :=
  match v, w with
  | Num p, Num q => Ret (Num (p + q))
  | PyNone, _ | _, PyNone => Raise TypeError
  | _, _ => Ret NonFinite
  end.

(** One step of the builtin [min]: the running minimum [cur] is replaced
    only by an item that is strictly smaller. *)
Definition py_min_step (cur item : pyval) : outcome pyval :=
  match cur, item with
  | Num c, Num i => Ret (Num (if Qlt_bool i c then i else c))
  | PyNone, _ | _, PyNone => Raise TypeError
  | _, _ => Ret NonFinite
  end.

Definition py_min3 (a b c : pyval) : outcome pyval :=
  m ← py_min_step a b; py_min_step m c.

(** [round(q, 2)] of the exact value [q], half to even. *)
Definition round_half_even (q : Q) : Z :=
  let f := Qfloor q in
  match Qcompare (q - inject_Z f) (1 # 2) with
  | Lt => f
  | Gt => (f + 1)%Z
  | Eq => if Z.even f then f else (f + 1)%Z
  end.

Definition round2 (q : Q) : Q := inject_Z (round_half_even (q * 100)) / 100.

Definition py_round2 (v : pyval) : outcome pyval :=
  match v with
  | Num q => Ret (Num (round2 q))
  | NonFinite => Ret NonFinite
  | PyNone => Raise TypeError
  end.

(** ** Fuzzy set tables *)

Definition PH_RANGES : gmap string (list Q) :=
  {[ "Asam" := [0; 0; 6; 7];
     "Optimal" := [6; 7; 8];
     "Basa" := [7; 8; 14; 14] ]}.

Definition TDS_RANGES : gmap string (list Q) :=
  {[ "Sangat Rendah" := [0; 0; 400; 600];
     "Rendah" := [400; 600; 900; 1100];
     "Optimal" := [900; 1100; 1800; 2000];
     "Tinggi" := [1800; 2000; 3000; 3000] ]}.

Definition TEMPERATURE_RANGES : gmap string (list Q) :=
  {[ "Dingin" := [0; 0; 23; 25];
     "Optimal" := [24; 27; 30];
     "Panas" := [28; 30; 45; 45] ]}.

(** [explode_array]: the same numbers, as a flat list of floats. *)
Definition explode_array (arr : list Q) : list Q := arr.

(** ** Membership functions *)

Definition fungsi_segitiga (x : Q) (params : list Q) : outcome pyval :=
  match params with
  | [a; b; c] =>
      if Qle_bool x a || Qle_bool c x then Ret (Num 0)
      else if Qlt_bool a x && Qle_bool x b then Ret (np_div (x - a) (b - a))
      else if Qlt_bool b x && Qlt_bool x c then Ret (np_div (c - x) (c - b))
      else Ret PyNone
  | _ => Raise ValueError
  end.

Definition fungsi_trapezium (x : Q) (params : list Q) : outcome pyval :=
  match params with
  | [a; b; c; d] =>
      if Qle_bool x a || Qle_bool d x then Ret (Num 0)
      else if Qlt_bool a x && Qle_bool x b then Ret (np_div (x - a) (b - a))
      else if Qlt_bool b x && Qle_bool x c then Ret (Num 1)
      else if Qlt_bool c x && Qlt_bool x d then Ret (np_div (d - x) (d - c))
      else Ret PyNone
  | _ => Raise ValueError
  end.

(** ** Variable fuzzifiers *)

Definition ph_membership (x : Q) : outcome (gmap string pyval) :=
  p1 ← getitem PH_RANGES "Asam";
  v1 ← fungsi_trapezium x (explode_array p1);
  p2 ← getitem PH_RANGES "Optimal";
  v2 ← fungsi_segitiga x (explode_array p2);
  p3 ← getitem PH_RANGES "Basa";
  v3 ← fungsi_trapezium x (explode_array p3);
  mret ({[ "Asam" := v1; "Optimal" := v2; "Basa" := v3 ]} : gmap string pyval).

Definition tds_membership (x : Q) : outcome (gmap string pyval) :=
  p1 ← getitem TDS_RANGES "Sangat Rendah";
  v1 ← fungsi_trapezium x (explode_array p1);
  p2 ← getitem TDS_RANGES "Rendah";
  v2 ← fungsi_trapezium x (explode_array p2);
  p3 ← getitem TDS_RANGES "Optimal";
  v3 ← fungsi_trapezium x (explode_array p3);
  p4 ← getitem TDS_RANGES "Tinggi";
  v4 ← fungsi_trapezium x (explode_array p4);
  mret ({[ "Sangat Rendah" := v1; "Rendah" := v2;
           "Optimal" := v3; "Tinggi" := v4 ]} : gmap string pyval).

Definition temp_membership (x : Q) : outcome (gmap string pyval) :=
  p1 ← getitem TEMPERATURE_RANGES "Dingin";
  v1 ← fungsi_trapezium x (explode_array p1);
  p2 ← getitem TEMPERATURE_RANGES "Optimal";
  v2 ← fungsi_segitiga x (explode_array p2);
  p3 ← getitem TEMPERATURE_RANGES "Panas";
  v3 ← fungsi_trapezium x (explode_array p3);
  mret ({[ "Dingin" := v1; "Optimal" := v2; "Panas" := v3 ]} : gmap string pyval).

(** ** Rule engine *)

(** A rule is the tuple (TDS term, pH term, temperature term, output). *)
Definition rule : Type := string * string * string * Z.

Definition rules : list rule :=
  [
    ("Sangat Rendah", "Asam", "Dingin", 1%Z);
    ("Sangat Rendah", "Asam", "Optimal", 1%Z);
    ("Sangat Rendah", "Asam", "Panas", 1%Z);
    ("Sangat Rendah", "Optimal", "Dingin", 1%Z);
    ("Sangat Rendah", "Optimal", "Optimal", 1%Z);
    ("Sangat Rendah", "Optimal", "Panas", 1%Z);
    ("Sangat Rendah", "Basa", "Dingin", 1%Z);
    ("Sangat Rendah", "Basa", "Optimal", 1%Z);
    ("Sangat Rendah", "Basa", "Panas", 1%Z);
    ("Rendah", "Asam", "Dingin", 1%Z);
    ("Rendah", "Asam", "Optimal", 1%Z);
    ("Rendah", "Asam", "Panas", 1%Z);
    ("Rendah", "Optimal", "Dingin", 1%Z);
    ("Rendah", "Optimal", "Optimal", 1%Z);
    ("Rendah", "Optimal", "Panas", 1%Z);
    ("Rendah", "Basa", "Dingin", 1%Z);
    ("Rendah", "Basa", "Optimal", 1%Z);
    ("Rendah", "Basa", "Panas", 1%Z);
    ("Optimal", "Asam", "Dingin", 1%Z);
    ("Optimal", "Asam", "Optimal", 1%Z);
    ("Optimal", "Asam", "Panas", 1%Z);
    ("Optimal", "Optimal", "Dingin", 1%Z);
    ("Optimal", "Optimal", "Optimal", 2%Z);
    ("Optimal", "Optimal", "Panas", 1%Z);
    ("Optimal", "Basa", "Dingin", 1%Z);
    ("Optimal", "Basa", "Optimal", 1%Z);
    ("Optimal", "Basa", "Panas", 1%Z);
    ("Tinggi", "Asam", "Dingin", 1%Z);
    ("Tinggi", "Asam", "Optimal", 1%Z);
    ("Tinggi", "Asam", "Panas", 1%Z);
    ("Tinggi", "Optimal", "Dingin", 1%Z);
    ("Tinggi", "Optimal", "Optimal", 1%Z);
    ("Tinggi", "Optimal", "Panas", 1%Z);
    ("Tinggi", "Basa", "Dingin", 1%Z);
    ("Tinggi", "Basa", "Optimal", 1%Z);
    ("Tinggi", "Basa", "Panas", 1%Z)
  ].

(** One entry of the list [fuzzy_rules] returns. *)
Record firing : Type := mk_firing { firing_strength : pyval; output : Z }.

Definition weights : gmap string Q :=
  {[ "ph" := 1 # 5; "tds" := 3 # 5; "water_temp" := 1 # 5 ]}.

(** The body of [for rule in rules], with [results] as the accumulator. *)
Fixpoint fuzzy_rules_loop (x1 x2 x3 : gmap string pyval)
    (rs : list rule) (results : list firing) : outcome (list firing) :=
  match rs with
  | [] => Ret results
  | (tds, ph, suhu, out) :: rest =>
      match x1 !! tds, x2 !! ph, x3 !! suhu with
      | Some v1, Some v2, Some v3 =>
          w1 ← getitem weights "tds";
          t1 ← py_mul v1 w1;
          w2 ← getitem weights "ph";
          t2 ← py_mul v2 w2;
          w3 ← getitem weights "water_temp";
          t3 ← py_mul v3 w3;
          fs ← py_min3 t1 t2 t3;
          fuzzy_rules_loop x1 x2 x3 rest (results ++ [mk_firing fs out])
      | _, _, _ => fuzzy_rules_loop x1 x2 x3 rest results
      end
  end.

Definition fuzzy_rules (x1 x2 x3 : gmap string pyval) : outcome (list firing) :=
  results ← fuzzy_rules_loop x1 x2 x3 rules [];
  mret (match results with
        | [] => [mk_firing (Num 0) 0]
        | _ => results
        end).

(** ** Defuzzifier *)

(** [sum(rule["firing_strength"] * rule["output"] for rule in rules)],
    started at [acc]. *)
Fixpoint sum_products (rs : list firing) (acc : pyval) : outcome pyval :=
  match rs with
  | [] => Ret acc
  | r :: rest =>
      p ← py_mul (firing_strength r) (inject_Z (output r));
      s ← py_add acc p;
      sum_products rest s
  end.

(** [sum(rule["firing_strength"] for rule in rules)], started at [acc]. *)
Fixpoint sum_strengths (rs : list firing) (acc : pyval) : outcome pyval :=
  match rs with
  | [] => Ret acc
  | r :: rest =>
      s ← py_add acc (firing_strength r);
      sum_strengths rest s
  end.

(** [v == 0]: false on [inf], [nan] and [None]. *)
Definition py_is_zero (v : pyval) : bool :=
  match v with
  | Num q => Qeq_bool q 0
  | _ => false
  end.

Definition py_div (n d : pyval) : outcome pyval :=
  match n, d with
  | Num p, Num q => Ret (np_div p q)
  | PyNone, _ | _, PyNone => Raise TypeError
  | _, _ => Ret NonFinite
  end.

Definition defuzzification (rs : list firing) : outcome pyval :=
  numerator ← sum_products rs (Num 0);
  denominator ← sum_strengths rs (Num 0);
  if py_is_zero denominator then Ret (Num 0)
  else q ← py_div numerator denominator; py_round2 q.

(** ** Pipeline entry point *)

Definition get_z_result (row : gmap string Q) : outcome pyval :=
  tds ← getitem row "tds";
  tds_mf ← tds_membership tds;
  ph ← getitem row "ph";
  ph_mf ← ph_membership ph;
  water_temp ← getitem row "water_temp";
  temp_mf ← temp_membership water_temp;
  rs ← fuzzy_rules tds_mf ph_mf temp_mf;
  defuzzification rs.

(** The observation as the dict [get_z_result] reads. *)
Definition observation (ph tds water_temp : Q) : gmap string Q :=
  {[ "ph" := ph; "tds" := tds; "water_temp" := water_temp ]}.

(** ** Categorical evaluator ([evaluation.py])

    A data frame is the list of its rows, a row the dict from column name to
    cell.  Text is ASCII: [strip] and [lower] act on the ASCII white space
    and the ASCII capitals. *)

Inductive cell : Type :=
| CStr (s : string)
| CNaN.

(** [str(v)] *)
Definition py_str (c : cell) : string :=
  match c with
  | CStr s => s
  | CNaN => "nan"
  end.

(** [c.isspace()] *)
Definition py_isspace (c : ascii) : bool :=
  let n := nat_of_ascii c in
  ((9 <=? n)%nat && (n <=? 13)%nat) || ((28 <=? n)%nat && (n <=? 32)%nat).

Fixpoint lstrip (s : string) : string :=
  match s with
  | EmptyString => EmptyString
  | String c rest => if py_isspace c then lstrip rest else s
  end.

Definition strip (s : string) : string :=
  String.rev (lstrip (String.rev (lstrip s))).

Definition lower_ascii (c : ascii) : ascii :=
  let n := nat_of_ascii c in
  if (65 <=? n)%nat && (n <=? 90)%nat then ascii_of_nat (n + 32) else c.

Fixpoint lower (s : string) : string :=
  match s with
  | EmptyString => EmptyString
  | String c rest => String (lower_ascii c) (lower rest)
  end.

Record confusion_matrix : Type :=
  mk_confusion { TP : Z; TN : Z; FP : Z; FN : Z }.

Record metrics : Type :=
  mk_metrics { Akurasi : Q; Presisi : Q; Recall : Q }.

Inductive evaluation : Type :=
| EvalError (msg : string)
| EvalReport (cm : confusion_matrix) (m : metrics).

Definition positive_class : string := "optimal".

(** The [try] block for one row: the counters after it, or the exception. *)
Definition count_row (actual_col predict_col : string)
    (row : gmap string cell) (cm : confusion_matrix) : outcome confusion_matrix :=
  a ← getitem row actual_col;
  let actual_value := lower (strip (py_str a)) in
  p ← getitem row predict_col;
  let predict_value := lower (strip (py_str p)) in
  let is_actual_positive := bool_decide (actual_value = positive_class) in
  let is_predict_positive := bool_decide (predict_value = positive_class) in
  mret (let '(mk_confusion tp tn fp fn) := cm in
        if is_predict_positive && is_actual_positive
        then mk_confusion (tp + 1) tn fp fn
        else if negb is_predict_positive && negb is_actual_positive
        then mk_confusion tp (tn + 1) fp fn
        else if is_predict_positive && negb is_actual_positive
        then mk_confusion tp tn (fp + 1) fn
        else if negb is_predict_positive && is_actual_positive
        then mk_confusion tp tn fp (fn + 1)
        else cm).

(** [for index, row in df.iterrows()], a row that raises being skipped. *)
Fixpoint count_rows (actual_col predict_col : string)
    (df : list (gmap string cell)) (cm : confusion_matrix) : confusion_matrix :=
  match df with
  | [] => cm
  | row :: rest =>
      match count_row actual_col predict_col row cm with
      | Ret cm' => count_rows actual_col predict_col rest cm'
      | Raise _ => count_rows actual_col predict_col rest cm
      end
  end.

Definition perform_categorical_evaluation (df : list (gmap string cell))
    (actual_col predict_col : string) : evaluation :=
  let '(mk_confusion tp tn fp fn) :=
    count_rows actual_col predict_col df (mk_confusion 0 0 0 0) in
  let total_data := (tp + tn + fp + fn)%Z in
  if (total_data =? 0)%Z
  then EvalError "No valid data available for evaluation."
  else
    let accuracy := inject_Z (tp + tn) / inject_Z total_data in
    let precision :=
      if (0 <? tp + fp)%Z then inject_Z tp / inject_Z (tp + fp) else 0 in
    let recall :=
      if (0 <? tp + fn)%Z then inject_Z tp / inject_Z (tp + fn) else 0 in
    EvalReport (mk_confusion tp tn fp fn) (mk_metrics accuracy precision recall).

(** A row with the two label columns ["actual"] and ["predicted"]. *)
Definition labelled (actual predicted : string) : gmap string cell :=
  {[ "actual" := CStr actual; "predicted" := CStr predicted ]}.

(** ** The vectorised membership function ([membership_function])

    Its input is either a plain Python number or a NumPy array (a NumPy
    scalar behaves as an array of one element).  The two differ on a zero
    divisor: Python's float division raises [ZeroDivisionError], NumPy's
    gives an infinity or NaN element by element. *)

Inductive npfloat : Type :=
| Fin (q : Q)
| PosInf
| NegInf
| NaN.

(** NumPy [n / d] on finite numbers. *)
Definition np_true_divide (n d : Q) : npfloat :=
  if Qeq_bool d 0 then
    match Qcompare n 0 with
    | Gt => PosInf
    | Lt => NegInf
    | Eq => NaN
    end
  else Fin (n / d).

(** [np.minimum] and [np.maximum]: a NaN operand gives NaN. *)
Definition np_minimum (u v : npfloat) : npfloat :=
  match u, v with
  | NaN, _ | _, NaN => NaN
  | NegInf, _ | _, NegInf => NegInf
  | PosInf, w | w, PosInf => w
  | Fin p, Fin q => Fin (if Qle_bool p q then p else q)
  end.

Definition np_maximum (u v : npfloat) : npfloat :=
  match u, v with
  | NaN, _ | _, NaN => NaN
  | PosInf, _ | _, PosInf => PosInf
  | NegInf, w | w, NegInf => w
  | Fin p, Fin q => Fin (if Qle_bool p q then q else p)
  end.

(** Python [n / d] on floats: [None] stands for [ZeroDivisionError]. *)
Definition float_div (n d : Q) : option Q :=
  if Qeq_bool d 0 then None else Some (n / d).

Inductive mf_input : Type :=
| XFloat (x : Q)
| XArray (xs : list Q).

Inductive mf_result : Type :=
| MfValue (v : npfloat)
| MfArray (vs : list npfloat)
| MfNone
| MfZeroDivisionError.

Definition membership_function (x : mf_input) (params : list Q) : mf_result :=
  match explode_array params with
  | [a; b; c] =>
      match x with
      | XFloat x =>
          match float_div (x - a) (b - a), float_div (c - x) (c - b) with
          | Some p, Some q =>
              MfValue (np_maximum (np_minimum (Fin p) (Fin q)) (Fin 0))
          | _, _ => MfZeroDivisionError
          end
      | XArray xs =>
          MfArray
            (map (fun x =>
                    np_maximum
                      (np_minimum (np_true_divide (x - a) (b - a))
                                  (np_true_divide (c - x) (c - b)))
                      (Fin 0)) xs)
      end
  | [a; b; c; d] =>
      match x with
      | XFloat x =>
          match float_div (x - a) (b - a), float_div (d - x) (d - c) with
          | Some p, Some q =>
              MfValue
                (np_maximum (np_minimum (np_minimum (Fin p) (Fin 1)) (Fin q))
                            (Fin 0))
          | _, _ => MfZeroDivisionError
          end
      | XArray xs =>
          MfArray
            (map (fun x =>
                    np_maximum
                      (np_minimum
                         (np_minimum (np_true_divide (x - a) (b - a)) (Fin 1))
                         (np_true_divide (d - x) (d - c)))
                      (Fin 0)) xs)
      end
  | _ => MfNone
  end.

(** ** The vocabulary of the specification

    The definitions below are not code of the repository: they spell out the
    specification's words, for the statements that compare them with the
    code above. *)

Definition tds_terms : list string := ["Sangat Rendah"; "Rendah"; "Optimal"; "Tinggi"].
Definition ph_terms : list string := ["Asam"; "Optimal"; "Basa"].
Definition temp_terms : list string := ["Dingin"; "Optimal"; "Panas"].

Definition antecedent (r : rule) : string * string * string :=
  let '(t, p, m, _) := r in (t, p, m).

Definition level (r : rule) : Z := let '(_, _, _, o) := r in o.

(** Level 2 for (Optimal, Optimal, Optimal), level 1 for the rest. *)
Definition spec_level (t p m : string) : Z :=
  if bool_decide (t = "Optimal" /\ p = "Optimal" /\ m = "Optimal") then 2%Z else 1%Z.

(** 4 TDS terms x 3 pH terms x 3 temperature terms, TDS outermost. *)
Definition spec_rule_grid : list rule :=
  t ← tds_terms; p ← ph_terms; m ← temp_terms; [(t, p, m, spec_level t p m)].

(** min(TDS degree x 0.6, pH degree x 0.2, temperature degree x 0.2) *)
Definition weighted_min (d_tds d_ph d_temp : Q) : Q :=
  Qmin (Qmin (d_tds * (3 # 5)) (d_ph * (1 # 5))) (d_temp * (1 # 5)).

Definition is_num (v : pyval) : bool :=
  match v with
  | Num _ => true
  | _ => false
  end.

(** A membership-degree mapping: every term it holds maps to a number. *)
Definition degree_mapping (x : gmap string pyval) : Prop :=
  map_Forall (fun _ v => is_num v = true) x.

(** A mapping whose degrees all lie in the unit interval. *)
Definition unit_degrees (x : gmap string pyval) : Prop :=
  map_Forall (fun _ v => exists q, v = Num q /\ 0 <= q <= 1) x.

(** What the specification asks of one rule: nothing when one of its terms
    is missing from the mappings, else the weighted minimum and the level. *)
Definition spec_fire (x1 x2 x3 : gmap string pyval) (r : rule) : option firing :=
  let '(t, p, m, o) := r in
  match x1 !! t, x2 !! p, x3 !! m with
  | Some (Num d1), Some (Num d2), Some (Num d3) =>
      Some (mk_firing (Num (weighted_min d1 d2 d3)) o)
  | _, _, _ => None
  end.

Definition sentinel : firing := mk_firing (Num 0) 0.

Definition or_sentinel (results : list firing) : list firing :=
  match results with
  | [] => [sentinel]
  | _ => results
  end.

(** A sequence of (firing strength, output) pairs, as the records the
    defuzzifier reads. *)
Definition firings_of (l : list (Q * Z)) : list firing :=
  map (fun so => mk_firing (Num (fst so)) (snd so)) l.

(** Σ(strength × output) and Σ(strength) *)
Definition weighted_sum (l : list (Q * Z)) : Q :=
  fold_right (fun so acc => fst so * inject_Z (snd so) + acc) 0 l.

Definition strength_sum (l : list (Q * Z)) : Q :=
  fold_right (fun so acc => fst so + acc) 0 l.

(** An entry whose strength is a non-negative number and whose output is
    level 1 or 2 unless the strength is 0 (the sentinel has output 0). *)
Definition graded (f : firing) : Prop :=
  exists s, firing_strength f = Num s /\ 0 <= s /\
            (s == 0 \/ (1 <= output f <= 2)%Z).

Definition graded_pair (so : Q * Z) : Prop :=
  0 <= fst so /\ (fst so == 0 \/ (1 <= snd so <= 2)%Z).

(** A row the evaluator counts: it holds both label columns. *)
Definition valid_row (actual_col predict_col : string)
    (row : gmap string cell) : Prop :=
  is_Some (row !! actual_col) /\ is_Some (row !! predict_col).

#[global] Instance valid_row_dec actual_col predict_col row :
  Decision (valid_row actual_col predict_col row).
Proof. unfold valid_row. apply _. Defined.

Definition total (cm : confusion_matrix) : Z := (TP cm + TN cm + FP cm + FN cm)%Z.

(** The report with the roles of the two columns exchanged. *)
Definition swap_counts (cm : confusion_matrix) : confusion_matrix :=
  mk_confusion (TP cm) (TN cm) (FN cm) (FP cm).

Definition swap_evaluation (e : evaluation) : evaluation :=
  match e with
  | EvalError msg => EvalError msg
  | EvalReport cm m =>
      EvalReport (swap_counts cm) (mk_metrics (Akurasi m) (Recall m) (Presisi m))
  end.

(** Strings of ASCII white space, and labels written another way. *)
Fixpoint all_space (s : string) : bool :=
  match s with
  | EmptyString => true
  | String c rest => py_isspace c && all_space rest
  end.

Definition upper_ascii (c : ascii) : ascii :=
  let n := nat_of_ascii c in
  if (97 <=? n)%nat && (n <=? 122)%nat then ascii_of_nat (n - 32) else c.

Fixpoint upper (s : string) : string :=
  match s with
  | EmptyString => EmptyString
  | String c rest => String (upper_ascii c) (upper rest)
  end.

(** A data frame whose text cells are rewritten by [g]. *)
Definition relabel_cell (g : string -> string) (c : cell) : cell :=
  match c with
  | CStr s => CStr (g s)
  | CNaN => CNaN
  end.

Definition relabel (g : string -> string) (df : list (gmap string cell))
    : list (gmap string cell) :=
  map (fun row : gmap string cell => relabel_cell g <$> row) df.

(** * Properties *)

(** ** Comparisons *)

Lemma Qlt_bool_iff (x y : Q) : Qlt_bool x y = true <-> x < y.
Proof.
  unfold Qlt_bool. rewrite negb_true_iff. split.
  - intros H. apply Qnot_le_lt. intros Hle.
    apply Qle_bool_iff in Hle. congruence.
  - intros H. destruct (Qle_bool y x) eqn:E; [|reflexivity].
    apply Qle_bool_iff in E. exfalso. exact (Qlt_not_le _ _ H E).
Qed.

Lemma Qle_bool_false (x y : Q) : Qle_bool x y = false <-> y < x.
Proof.
  rewrite <- Qlt_bool_iff. unfold Qlt_bool. rewrite negb_true_iff. tauto.
Qed.

Lemma Qlt_bool_false (x y : Q) : Qlt_bool x y = false <-> y <= x.
Proof.
  unfold Qlt_bool. rewrite negb_false_iff. apply Qle_bool_iff.
Qed.

Lemma Qeq_bool_false (x y : Q) : Qeq_bool x y = false <-> ~ x == y.
Proof.
  split.
  - intros H E. apply Qeq_bool_iff in E. congruence.
  - intros H. destruct (Qeq_bool x y) eqn:E; [|reflexivity].
    apply Qeq_bool_iff in E. contradiction.
Qed.

(** Turns every boolean comparison in the context into its proposition. *)
Ltac reflect_cmp :=
  repeat match goal with
  | H : (_ || _)%bool = true |- _ => apply orb_true_iff in H; destruct H
  | H : (_ || _)%bool = false |- _ => apply orb_false_iff in H; destruct H
  | H : (_ && _)%bool = true |- _ => apply andb_true_iff in H; destruct H
  | H : (_ && _)%bool = false |- _ => apply andb_false_iff in H; destruct H
  | H : Qle_bool _ _ = true |- _ => apply Qle_bool_iff in H
  | H : Qle_bool _ _ = false |- _ => apply Qle_bool_false in H
  | H : Qlt_bool _ _ = true |- _ => apply Qlt_bool_iff in H
  | H : Qlt_bool _ _ = false |- _ => apply Qlt_bool_false in H
  | H : Qeq_bool _ _ = true |- _ => apply Qeq_bool_iff in H
  | H : Qeq_bool _ _ = false |- _ => apply Qeq_bool_false in H
  end.

(** ** Membership functions *)

Lemma ratio_unit (n d : Q) : 0 <= n -> n <= d -> 0 < d -> 0 <= n / d <= 1.
Proof.
  intros Hn Hd Hpos. split.
  - apply Qle_shift_div_l; [assumption|]. lra.
  - apply Qle_shift_div_r; [assumption|]. lra.
Qed.

Lemma np_div_unit (n d : Q) :
  0 <= n -> n <= d -> 0 < d -> exists q, np_div n d = Num q /\ q == n / d /\ 0 <= q <= 1.
Proof.
  intros Hn Hd Hpos. unfold np_div.
  destruct (Qeq_bool d 0) eqn:E; reflect_cmp; [lra|].
  exists (n / d). split; [reflexivity|]. split; [reflexivity|].
  apply ratio_unit; assumption.
Qed.

(** The scalar trapezoid returns a number of the unit interval, whatever
    the four parameters: each division is guarded by its own branch. *)
Lemma fungsi_trapezium_unit (x a b c d : Q) :
  exists q, fungsi_trapezium x [a; b; c; d] = Ret (Num q) /\ 0 <= q <= 1.
Proof.
  unfold fungsi_trapezium.
  destruct (Qle_bool x a || Qle_bool d x)%bool eqn:E1.
  { exists 0. split; [reflexivity|lra]. }
  destruct (Qlt_bool a x && Qle_bool x b)%bool eqn:E2.
  { reflect_cmp;
      (destruct (np_div_unit (x - a) (b - a)) as (q & -> & _ & Hq); try lra);
      exists q; split; [reflexivity|assumption]. }
  destruct (Qlt_bool b x && Qle_bool x c)%bool eqn:E3.
  { exists 1. split; [reflexivity|lra]. }
  destruct (Qlt_bool c x && Qlt_bool x d)%bool eqn:E4.
  { reflect_cmp;
      (destruct (np_div_unit (d - x) (d - c)) as (q & -> & _ & Hq); try lra);
      exists q; split; [reflexivity|assumption]. }
  exfalso. reflect_cmp; lra.
Qed.

Lemma fungsi_segitiga_unit (x a b c : Q) :
  exists q, fungsi_segitiga x [a; b; c] = Ret (Num q) /\ 0 <= q <= 1.
Proof.
  unfold fungsi_segitiga.
  destruct (Qle_bool x a || Qle_bool c x)%bool eqn:E1.
  { exists 0. split; [reflexivity|lra]. }
  destruct (Qlt_bool a x && Qle_bool x b)%bool eqn:E2.
  { reflect_cmp;
      (destruct (np_div_unit (x - a) (b - a)) as (q & -> & _ & Hq); try lra);
      exists q; split; [reflexivity|assumption]. }
  destruct (Qlt_bool b x && Qlt_bool x c)%bool eqn:E3.
  { reflect_cmp;
      (destruct (np_div_unit (c - x) (c - b)) as (q & -> & _ & Hq); try lra);
      exists q; split; [reflexivity|assumption]. }
  exfalso. reflect_cmp; lra.
Qed.

(** The outer breakpoints come first: at [x = a] and at [x = d] the
    trapezoid is 0, whatever the other parameters. *)
Lemma fungsi_trapezium_outer (x a b c d : Q) :
  x <= a \/ d <= x -> fungsi_trapezium x [a; b; c; d] = Ret (Num 0).
Proof.
  intros H. unfold fungsi_trapezium.
  destruct (Qle_bool x a || Qle_bool d x)%bool eqn:E; [reflexivity|].
  exfalso. reflect_cmp; lra.
Qed.

Lemma fungsi_trapezium_plateau (x a b c d : Q) :
  a < x -> x < d -> b <= x <= c ->
  exists q, fungsi_trapezium x [a; b; c; d] = Ret (Num q) /\ q == 1.
Proof.
  intros Ha Hd [Hb Hc]. unfold fungsi_trapezium.
  destruct (Qle_bool x a || Qle_bool d x)%bool eqn:E1.
  { exfalso. reflect_cmp; lra. }
  destruct (Qlt_bool a x && Qle_bool x b)%bool eqn:E2.
  { reflect_cmp;
      (destruct (np_div_unit (x - a) (b - a)) as (q & -> & Hq & _); try lra);
      exists q; (split; [reflexivity|]); rewrite Hq;
      assert (Hx : x - a == b - a) by lra; rewrite Hx;
      apply Qmult_inv_r; lra. }
  destruct (Qlt_bool b x && Qle_bool x c)%bool eqn:E3.
  { exists 1. split; reflexivity. }
  exfalso. reflect_cmp; lra.
Qed.

(** C1 (as amended): at the observation ph=0, tds=0, water_temp=0 every
    membership degree is 0, because each input sits on the outer breakpoint
    [x = a] of its low set (Asam, Sangat Rendah, Dingin), where the
    trapezoid returns 0; no rule fires and [get_z_result] returns exactly 0. *)
Theorem get_z_result_low_edges :
  ph_membership 0
    = Ret {[ "Asam" := Num 0; "Optimal" := Num 0; "Basa" := Num 0 ]} /\
  tds_membership 0
    = Ret {[ "Sangat Rendah" := Num 0; "Rendah" := Num 0;
             "Optimal" := Num 0; "Tinggi" := Num 0 ]} /\
  temp_membership 0
    = Ret {[ "Dingin" := Num 0; "Optimal" := Num 0; "Panas" := Num 0 ]} /\
  get_z_result (observation 0 0 0) = Ret (Num 0).
Proof. repeat split; vm_compute; reflexivity. Qed.

(** C1, the claim as stated fails: the score at ph=0, tds=0, water_temp=0
    is a number different from 1. *)
Lemma get_z_result_low_edges_not_one :
  exists r, get_z_result (observation 0 0 0) = Ret (Num r) /\ ~ r == 1.
Proof. exists 0. split; [vm_compute; reflexivity|]. intros H. discriminate H. Qed.

(** C2 (as amended): on a trapezoid with a zero-width rising edge [a = b]
    the scalar function returns 0 at [x = a = b], and with a zero-width
    falling edge [c = d] it returns 0 at [x = c = d] (the test
    [x <= a or x >= d] is taken first); and for every input and every four
    parameters the result is a finite number: no division ever has a zero
    divisor, so neither NaN nor infinity is produced. *)
Theorem fungsi_trapezium_degenerate_edge (x a b c d : Q) :
  (a == b -> x == a -> fungsi_trapezium x [a; b; c; d] = Ret (Num 0)) /\
  (c == d -> x == d -> fungsi_trapezium x [a; b; c; d] = Ret (Num 0)) /\
  (exists q, fungsi_trapezium x [a; b; c; d] = Ret (Num q)).
Proof.
  split; [|split].
  - intros _ Hx. apply fungsi_trapezium_outer. left. lra.
  - intros _ Hx. apply fungsi_trapezium_outer. right. lra.
  - destruct (fungsi_trapezium_unit x a b c d) as (q & Hq & _). eauto.
Qed.

Lemma fungsi_trapezium_degenerate_edge_witness :
  (0 == 0 /\ 0 == 0 /\ fungsi_trapezium 0 [0; 0; 6; 7] = Ret (Num 0)) /\
  (14 == 14 /\ 14 == 14 /\ fungsi_trapezium 14 [7; 8; 14; 14] = Ret (Num 0)).
Proof.
  split.
  - split; [reflexivity|]. split; [reflexivity|].
    apply (proj1 (fungsi_trapezium_degenerate_edge 0 0 0 6 7)); reflexivity.
  - split; [reflexivity|]. split; [reflexivity|].
    apply (proj1 (proj2 (fungsi_trapezium_degenerate_edge 14 7 8 14 14))); reflexivity.
Defined.

(** C2, the claim as stated fails: Asam [0, 0, 6, 7] has [a = b = 0] and
    Basa [7, 8, 14, 14] has [c = d = 14]; at those boundary points the
    function returns 0, which is not 1. *)
Lemma fungsi_trapezium_degenerate_edge_not_one :
  fungsi_trapezium 0 [0; 0; 6; 7] = Ret (Num 0) /\
  fungsi_trapezium 14 [7; 8; 14; 14] = Ret (Num 0) /\
  ~ 0 == 1.
Proof.
  split; [vm_compute; reflexivity|]. split; [vm_compute; reflexivity|].
  intros H. discriminate H.
Qed.

(** C7 (as amended): for every trapezoid with [a <= b <= c <= d] the scalar
    function returns 0 at [x = a] and at [x = d], and returns 1 at every [x]
    of [[b, c]] that lies strictly between [a] and [d] (all of [[b, c]] when
    [a < b] and [c < d]). *)
Theorem fungsi_trapezium_breakpoints (a b c d : Q) :
  a <= b -> b <= c -> c <= d ->
  fungsi_trapezium a [a; b; c; d] = Ret (Num 0) /\
  fungsi_trapezium d [a; b; c; d] = Ret (Num 0) /\
  (forall x, b <= x <= c -> a < x -> x < d ->
     exists q, fungsi_trapezium x [a; b; c; d] = Ret (Num q) /\ q == 1).
Proof.
  intros Hab Hbc Hcd. split; [|split].
  - apply fungsi_trapezium_outer. left. lra.
  - apply fungsi_trapezium_outer. right. lra.
  - intros x Hx Ha Hd. apply fungsi_trapezium_plateau; assumption.
Qed.

Lemma fungsi_trapezium_breakpoints_witness :
  (400 <= 600 /\ 600 <= 900 /\ 900 <= 1100) /\
  fungsi_trapezium 400 [400; 600; 900; 1100] = Ret (Num 0) /\
  fungsi_trapezium 1100 [400; 600; 900; 1100] = Ret (Num 0) /\
  (forall x, 600 <= x <= 900 -> 400 < x -> x < 1100 ->
     exists q, fungsi_trapezium x [400; 600; 900; 1100] = Ret (Num q) /\ q == 1).
Proof.
  split; [repeat split; discriminate|].
  apply (fungsi_trapezium_breakpoints 400 600 900 1100); discriminate.
Defined.

(** C7, the claim as stated fails: on Asam [0, 0, 6, 7] the parameters are
    ordered and [x = 0] lies in [[b, c] = [0, 6]], yet the function returns
    0 there, not 1. *)
Lemma fungsi_trapezium_plateau_not_closed :
  (0 <= 0 /\ 0 <= 6 /\ 6 <= 7) /\ (0 <= 0 <= 6) /\
  fungsi_trapezium 0 [0; 0; 6; 7] = Ret (Num 0) /\ ~ 0 == 1.
Proof.
  split; [repeat split; discriminate|]. split; [split; discriminate|].
  split; [vm_compute; reflexivity|]. intros H. discriminate H.
Qed.

(** C8: for every input [x] and every valid parameter list (triangular
    [a <= b <= c], trapezoidal [a <= b <= c <= d]) the scalar membership
    function returns a number, and that degree lies in [[0, 1]]. *)
Theorem membership_degree_unit (x a b c d : Q) :
  (a <= b -> b <= c ->
     exists q, fungsi_segitiga x [a; b; c] = Ret (Num q) /\ 0 <= q <= 1) /\
  (a <= b -> b <= c -> c <= d ->
     exists q, fungsi_trapezium x [a; b; c; d] = Ret (Num q) /\ 0 <= q <= 1).
Proof.
  split.
  - intros _ _. apply fungsi_segitiga_unit.
  - intros _ _ _. apply fungsi_trapezium_unit.
Qed.

Lemma membership_degree_unit_witness :
  (24 <= 27 /\ 27 <= 30 /\
     exists q, fungsi_segitiga (51 # 2) [24; 27; 30] = Ret (Num q) /\ 0 <= q <= 1) /\
  (900 <= 1100 /\ 1100 <= 1800 /\ 1800 <= 2000 /\
     exists q, fungsi_trapezium 1000 [900; 1100; 1800; 2000] = Ret (Num q) /\ 0 <= q <= 1).
Proof.
  split.
  - split; [discriminate|]. split; [discriminate|].
    apply (proj1 (membership_degree_unit (51 # 2) 24 27 30 0)); discriminate.
  - split; [discriminate|]. split; [discriminate|]. split; [discriminate|].
    apply (proj2 (membership_degree_unit 1000 900 1100 1800 2000)); discriminate.
Defined.

(** C6: at the observation ph=7, tds=1200, water_temp=27 the score is a
    number greater than or equal to 1.8 (it is 2); of the entries
    [fuzzy_rules] returns there, the only one with a strength other than 0
    is that of the level-2 rule, with strength 1/5. *)
Theorem get_z_result_optimal_centre :
  (exists r, get_z_result (observation 7 1200 27) = Ret (Num r) /\
             18 # 10 <= r /\ r == 2) /\
  (tds_mf ← tds_membership 1200;
   ph_mf ← ph_membership 7;
   temp_mf ← temp_membership 27;
   rs ← fuzzy_rules tds_mf ph_mf temp_mf;
   mret (filter (fun f => py_is_zero (firing_strength f) = false) rs))
  = Ret [mk_firing (Num (1 # 5)) 2].
Proof.
  split.
  - eexists. split; [vm_compute; reflexivity|].
    split; [discriminate|reflexivity].
  - vm_compute. reflexivity.
Qed.

(** C9: on the three rows (Optimal, Optimal), (Normal, Normal),
    (Optimal, Normal) the categorical evaluator reports TP=1, TN=1, FN=1,
    FP=0, accuracy 2/3, precision 1 and recall 1/2. *)
Theorem perform_categorical_evaluation_three_rows :
  perform_categorical_evaluation
    [labelled "Optimal" "Optimal"; labelled "Normal" "Normal";
     labelled "Optimal" "Normal"] "actual" "predicted"
  = EvalReport (mk_confusion 1 1 0 1) (mk_metrics (2 # 3) 1 (1 # 2)).
Proof. vm_compute. reflexivity. Qed.

(** ** Rule base *)

(** C3: the rule base that [fuzzy_rules] walks is a fixed sequence of 36
    rules, the grid of the 4 TDS terms, 3 pH terms and 3 temperature terms
    (the terms of the three tables) in which every combination occurs once;
    the only rule of level 2 is (Optimal, Optimal, Optimal) and the 35 other
    rules have level 1. *)
Theorem rules_grid :
  length rules = 36%nat /\
  rules = spec_rule_grid /\
  NoDup (antecedent <$> rules) /\
  (list_to_set tds_terms = dom TDS_RANGES /\
   list_to_set ph_terms = dom PH_RANGES /\
   list_to_set temp_terms = dom TEMPERATURE_RANGES) /\
  filter (fun r => level r = 2%Z) rules
    = [("Optimal", "Optimal", "Optimal", 2%Z)] /\
  length (filter (fun r => level r = 1%Z) rules) = 35%nat.
Proof.
  split; [reflexivity|]. split; [vm_compute; reflexivity|].
  split; [apply (bool_decide_unpack _); vm_compute; exact I|].
  split; [repeat split; apply (bool_decide_unpack _); vm_compute; exact I|].
  split; vm_compute; reflexivity.
Qed.

(** ** Rule engine *)

(** The builtin [min] on two numbers is the rational minimum, the first
    argument winning ties. *)
Lemma py_min_step_num (c i : Q) :
  py_min_step (Num c) (Num i) = Ret (Num (Qmin c i)).
Proof.
  unfold py_min_step, Qmin, GenericMinMax.gmin. do 2 f_equal.
  destruct (Qlt_bool i c) eqn:E; reflect_cmp.
  - rewrite (proj1 (Qgt_alt c i) E). reflexivity.
  - destruct (c ?= i) eqn:E'; [reflexivity|reflexivity|].
    exfalso. exact (proj1 (Qle_alt c i) E E').
Qed.

Lemma py_min3_num (a b c : Q) :
  py_min3 (Num a) (Num b) (Num c) = Ret (Num (Qmin (Qmin a b) c)).
Proof.
  unfold py_min3. rewrite py_min_step_num. apply py_min_step_num.
Qed.

Lemma weights_tds : getitem weights "tds" = Ret (3 # 5).
Proof. vm_compute. reflexivity. Qed.

Lemma weights_ph : getitem weights "ph" = Ret (1 # 5).
Proof. vm_compute. reflexivity. Qed.

Lemma weights_water_temp : getitem weights "water_temp" = Ret (1 # 5).
Proof. vm_compute. reflexivity. Qed.

Lemma degree_mapping_lookup (x : gmap string pyval) (k : string) (v : pyval) :
  degree_mapping x -> x !! k = Some v -> exists q, v = Num q.
Proof.
  intros Hx Hk. specialize (Hx k v Hk). destruct v; try discriminate. eauto.
Qed.

(** The loop of [fuzzy_rules] appends, rule by rule, what the specification
    asks of that rule. *)
Lemma fuzzy_rules_loop_spec (x1 x2 x3 : gmap string pyval) :
  degree_mapping x1 -> degree_mapping x2 -> degree_mapping x3 ->
  forall rs results,
    fuzzy_rules_loop x1 x2 x3 rs results
    = Ret (results ++ omap (spec_fire x1 x2 x3) rs).
Proof.
  intros H1 H2 H3 rs. induction rs as [|[[[t p] m] o] rs IH]; intros results.
  - simpl. rewrite app_nil_r. reflexivity.
  - cbn [fuzzy_rules_loop omap list_omap spec_fire].
    destruct (x1 !! t) as [v1|] eqn:E1; [|apply IH].
    destruct (degree_mapping_lookup _ _ _ H1 E1) as [d1 ->].
    destruct (x2 !! p) as [v2|] eqn:E2; [|apply IH].
    destruct (degree_mapping_lookup _ _ _ H2 E2) as [d2 ->].
    destruct (x3 !! m) as [v3|] eqn:E3; [|apply IH].
    destruct (degree_mapping_lookup _ _ _ H3 E3) as [d3 ->].
    rewrite weights_tds, weights_ph, weights_water_temp.
    cbn [mbind outcome_bind py_mul]. rewrite py_min3_num.
    cbn [mbind outcome_bind]. rewrite IH, <- app_assoc. reflexivity.
Qed.

Lemma fuzzy_rules_spec (x1 x2 x3 : gmap string pyval) :
  degree_mapping x1 -> degree_mapping x2 -> degree_mapping x3 ->
  fuzzy_rules x1 x2 x3 = Ret (or_sentinel (omap (spec_fire x1 x2 x3) rules)).
Proof.
  intros H1 H2 H3. unfold fuzzy_rules.
  pose proof (fuzzy_rules_loop_spec x1 x2 x3 H1 H2 H3 rules []) as E.
  generalize dependent (omap (spec_fire x1 x2 x3) rules).
  intros l E. rewrite E. reflexivity.
Qed.

(** C4: on membership-degree mappings [fuzzy_rules] returns, in the order of
    the rule base, one entry per rule whose three terms the mappings hold;
    for every rule and every such triple of mappings, the entry of that rule
    has the firing strength min(TDS degree x 0.6, pH degree x 0.2,
    temperature degree x 0.2) and the rule's output, the same three weights
    for each of the 36 rules. *)
Theorem fuzzy_rules_weighted_min (x1 x2 x3 : gmap string pyval) :
  degree_mapping x1 -> degree_mapping x2 -> degree_mapping x3 ->
  exists results,
    fuzzy_rules x1 x2 x3 = Ret results /\
    results = or_sentinel (omap (spec_fire x1 x2 x3) rules) /\
    forall t p m o d1 d2 d3,
      In (t, p, m, o) rules ->
      x1 !! t = Some (Num d1) -> x2 !! p = Some (Num d2) ->
      x3 !! m = Some (Num d3) ->
      In (mk_firing (Num (Qmin (Qmin (d1 * (3 # 5)) (d2 * (1 # 5)))
                               (d3 * (1 # 5)))) o) results.
Proof.
  intros H1 H2 H3. eexists. split; [apply fuzzy_rules_spec; assumption|].
  split; [reflexivity|].
  intros t p m o d1 d2 d3 Hin E1 E2 E3.
  assert (Hel : mk_firing (Num (weighted_min d1 d2 d3)) o
                ∈ omap (spec_fire x1 x2 x3) rules).
  { apply list_elem_of_omap. exists (t, p, m, o).
    split; [apply list_elem_of_In; exact Hin|].
    unfold spec_fire. rewrite E1, E2, E3. reflexivity. }
  apply list_elem_of_In. unfold or_sentinel.
  destruct (omap (spec_fire x1 x2 x3) rules); [inversion Hel|exact Hel].
Qed.

Lemma fuzzy_rules_weighted_min_witness :
  let x1 : gmap string pyval := {[ "Optimal" := Num 1; "Tinggi" := Num 0 ]} in
  let x2 : gmap string pyval := {[ "Optimal" := Num (1 # 2); "Basa" := Num (1 # 2) ]} in
  let x3 : gmap string pyval := {[ "Optimal" := Num 1 ]} in
  (degree_mapping x1 /\ degree_mapping x2 /\ degree_mapping x3) /\
  exists results,
    fuzzy_rules x1 x2 x3 = Ret results /\
    results = or_sentinel (omap (spec_fire x1 x2 x3) rules) /\
    forall t p m o d1 d2 d3,
      In (t, p, m, o) rules ->
      x1 !! t = Some (Num d1) -> x2 !! p = Some (Num d2) ->
      x3 !! m = Some (Num d3) ->
      In (mk_firing (Num (Qmin (Qmin (d1 * (3 # 5)) (d2 * (1 # 5)))
                               (d3 * (1 # 5)))) o) results.
Proof.
  intros x1 x2 x3.
  assert (H1 : degree_mapping x1)
    by (apply (bool_decide_unpack _); vm_compute; exact I).
  assert (H2 : degree_mapping x2)
    by (apply (bool_decide_unpack _); vm_compute; exact I).
  assert (H3 : degree_mapping x3)
    by (apply (bool_decide_unpack _); vm_compute; exact I).
  split; [auto|].
  exact (fuzzy_rules_weighted_min x1 x2 x3 H1 H2 H3).
Defined.

(** ** Rounding *)

Lemma round_half_even_nearest (y : Q) :
  Qabs (y - inject_Z (round_half_even y)) <= 1 # 2 /\
  (Qabs (y - inject_Z (round_half_even y)) == 1 # 2 ->
   Z.even (round_half_even y) = true).
Proof.
  unfold round_half_even.
  pose proof (Qfloor_le y) as Hlo. pose proof (Qlt_floor y) as Hhi.
  rewrite inject_Z_plus in Hhi. change (inject_Z 1) with 1 in Hhi.
  set (f := Qfloor y) in *.
  destruct (Qcompare (y - inject_Z f) (1 # 2)) eqn:E.
  - apply Qeq_alt in E.
    destruct (Z.even f) eqn:Ev.
    + split; [|intros _; exact Ev].
      apply Qabs_Qle_condition. lra.
    + rewrite inject_Z_plus. change (inject_Z 1) with 1. split.
      * apply Qabs_Qle_condition. lra.
      * intros _. rewrite Z.add_1_r, Z.even_succ, <- Z.negb_even, Ev.
        reflexivity.
  - apply Qlt_alt in E. split.
    + apply Qabs_Qle_condition. lra.
    + intros H. rewrite Qabs_pos in H by lra. lra.
  - apply Qgt_alt in E. rewrite inject_Z_plus. change (inject_Z 1) with 1.
    split.
    + apply Qabs_Qle_condition. lra.
    + intros H. rewrite Qabs_neg in H by lra. lra.
Qed.

Lemma round_half_even_proper (x y : Q) :
  x == y -> round_half_even x = round_half_even y.
Proof.
  intros H. unfold round_half_even.
  rewrite (Qfloor_comp x y H).
  assert (Hc : Qcompare (x - inject_Z (Qfloor y)) (1 # 2)
               = Qcompare (y - inject_Z (Qfloor y)) (1 # 2))
    by (rewrite H; reflexivity).
  rewrite Hc. reflexivity.
Qed.

Lemma round2_proper (x y : Q) : x == y -> round2 x = round2 y.
Proof.
  intros H. unfold round2.
  rewrite (round_half_even_proper (x * 100) (y * 100)); [reflexivity|].
  rewrite H. reflexivity.
Qed.

(** Rounding keeps a value of [[1, 2]] in [[1, 2]]: both ends are whole
    numbers of hundredths. *)
Lemma round2_between_1_2 (v : Q) : 1 <= v <= 2 -> 1 <= round2 v <= 2.
Proof.
  intros [Hlo Hhi]. unfold round2.
  destruct (round_half_even_nearest (v * 100)) as [Hn _].
  set (n := round_half_even (v * 100)) in *.
  apply Qabs_Qle_condition in Hn.
  assert (H1 : (99 < n)%Z).
  { rewrite Zlt_Qlt. change (inject_Z 99) with 99. lra. }
  assert (H2 : (n < 201)%Z).
  { rewrite Zlt_Qlt. change (inject_Z 201) with 201. lra. }
  assert (H3 : (100 <= n)%Z) by lia. assert (H4 : (n <= 200)%Z) by lia.
  rewrite Zle_Qle in H3, H4.
  change (inject_Z 100) with 100 in H3. change (inject_Z 200) with 200 in H4.
  split.
  - apply Qle_shift_div_l; [reflexivity|]. lra.
  - apply Qle_shift_div_r; [reflexivity|]. lra.
Qed.

(** ** Defuzzifier *)

Lemma sum_products_firings (l : list (Q * Z)) (acc : Q) :
  exists n, sum_products (firings_of l) (Num acc) = Ret (Num n) /\
            n == acc + weighted_sum l.
Proof.
  revert acc. induction l as [|[s o] l IH]; intros acc.
  - exists acc. split; [reflexivity|]. simpl. lra.
  - destruct (IH (acc + s * inject_Z o)) as (n & Hn & En).
    exists n. split; [exact Hn|]. rewrite En. simpl. lra.
Qed.

Lemma sum_strengths_firings (l : list (Q * Z)) (acc : Q) :
  exists n, sum_strengths (firings_of l) (Num acc) = Ret (Num n) /\
            n == acc + strength_sum l.
Proof.
  revert acc. induction l as [|[s o] l IH]; intros acc.
  - exists acc. split; [reflexivity|]. simpl. lra.
  - destruct (IH (acc + s)) as (n & Hn & En).
    exists n. split; [exact Hn|]. rewrite En. simpl. lra.
Qed.

(** The two branches of [defuzzification] on numeric pairs. *)
Lemma defuzzification_firings (l : list (Q * Z)) :
  (strength_sum l == 0 -> defuzzification (firings_of l) = Ret (Num 0)) /\
  (~ strength_sum l == 0 ->
   defuzzification (firings_of l)
   = Ret (Num (round2 (weighted_sum l / strength_sum l)))).
Proof.
  unfold defuzzification.
  destruct (sum_products_firings l 0) as (num & -> & Hnum).
  destruct (sum_strengths_firings l 0) as (den & -> & Hden).
  cbn [mbind outcome_bind py_is_zero].
  rewrite Qplus_0_l in Hnum, Hden.
  split; intros H.
  - destruct (Qeq_bool den 0) eqn:E; [reflexivity|].
    reflect_cmp. exfalso. apply E. rewrite Hden. exact H.
  - destruct (Qeq_bool den 0) eqn:E.
    + reflect_cmp. exfalso. apply H. rewrite <- Hden. exact E.
    + cbn [py_div mbind outcome_bind]. unfold np_div. rewrite E.
      cbn [py_round2 mbind outcome_bind]. do 2 f_equal.
      apply round2_proper. rewrite Hnum, Hden. reflexivity.
Qed.

Example defuzzification_rounds :
  defuzzification (firings_of [(1 # 5, 2%Z); (1 # 10, 1%Z); (0, 1%Z)])
  = Ret (Num (167 # 100)).
Proof. vm_compute. reflexivity. Qed.

Example defuzzification_zero :
  defuzzification (firings_of [(0, 1%Z); (0, 2%Z)]) = Ret (Num 0).
Proof. vm_compute. reflexivity. Qed.

(** ** Pipeline *)

Lemma ph_ranges_asam : getitem PH_RANGES "Asam" = Ret [0; 0; 6; 7].
Proof. vm_compute. reflexivity. Qed.

Lemma ph_ranges_optimal : getitem PH_RANGES "Optimal" = Ret [6; 7; 8].
Proof. vm_compute. reflexivity. Qed.

Lemma ph_ranges_basa : getitem PH_RANGES "Basa" = Ret [7; 8; 14; 14].
Proof. vm_compute. reflexivity. Qed.

Lemma tds_ranges_sangat_rendah :
  getitem TDS_RANGES "Sangat Rendah" = Ret [0; 0; 400; 600].
Proof. vm_compute. reflexivity. Qed.

Lemma tds_ranges_rendah :
  getitem TDS_RANGES "Rendah" = Ret [400; 600; 900; 1100].
Proof. vm_compute. reflexivity. Qed.

Lemma tds_ranges_optimal :
  getitem TDS_RANGES "Optimal" = Ret [900; 1100; 1800; 2000].
Proof. vm_compute. reflexivity. Qed.

Lemma tds_ranges_tinggi :
  getitem TDS_RANGES "Tinggi" = Ret [1800; 2000; 3000; 3000].
Proof. vm_compute. reflexivity. Qed.

Lemma temperature_ranges_dingin :
  getitem TEMPERATURE_RANGES "Dingin" = Ret [0; 0; 23; 25].
Proof. vm_compute. reflexivity. Qed.

Lemma temperature_ranges_optimal :
  getitem TEMPERATURE_RANGES "Optimal" = Ret [24; 27; 30].
Proof. vm_compute. reflexivity. Qed.

Lemma temperature_ranges_panas :
  getitem TEMPERATURE_RANGES "Panas" = Ret [28; 30; 45; 45].
Proof. vm_compute. reflexivity. Qed.

(** Closes [unit_degrees] of a dict literal whose values are known degrees. *)
Ltac unit_dict :=
  unfold unit_degrees;
  repeat (apply map_Forall_insert_2; [eauto|]);
  first [apply map_Forall_singleton; eauto | apply map_Forall_empty].

Lemma ph_membership_unit (x : Q) :
  exists m, ph_membership x = Ret m /\ unit_degrees m.
Proof.
  unfold ph_membership.
  rewrite ph_ranges_asam, ph_ranges_optimal, ph_ranges_basa.
  cbn [mbind outcome_bind]. unfold explode_array.
  destruct (fungsi_trapezium_unit x 0 0 6 7) as (q1 & -> & H1).
  cbn [mbind outcome_bind].
  destruct (fungsi_segitiga_unit x 6 7 8) as (q2 & -> & H2).
  cbn [mbind outcome_bind].
  destruct (fungsi_trapezium_unit x 7 8 14 14) as (q3 & -> & H3).
  cbn [mbind outcome_bind].
  eexists. split; [reflexivity|]. unit_dict.
Qed.

Lemma tds_membership_unit (x : Q) :
  exists m, tds_membership x = Ret m /\ unit_degrees m.
Proof.
  unfold tds_membership.
  rewrite tds_ranges_sangat_rendah, tds_ranges_rendah, tds_ranges_optimal,
    tds_ranges_tinggi.
  cbn [mbind outcome_bind]. unfold explode_array.
  destruct (fungsi_trapezium_unit x 0 0 400 600) as (q1 & -> & H1).
  cbn [mbind outcome_bind].
  destruct (fungsi_trapezium_unit x 400 600 900 1100) as (q2 & -> & H2).
  cbn [mbind outcome_bind].
  destruct (fungsi_trapezium_unit x 900 1100 1800 2000) as (q3 & -> & H3).
  cbn [mbind outcome_bind].
  destruct (fungsi_trapezium_unit x 1800 2000 3000 3000) as (q4 & -> & H4).
  cbn [mbind outcome_bind].
  eexists. split; [reflexivity|]. unit_dict.
Qed.

Lemma temp_membership_unit (x : Q) :
  exists m, temp_membership x = Ret m /\ unit_degrees m.
Proof.
  unfold temp_membership.
  rewrite temperature_ranges_dingin, temperature_ranges_optimal,
    temperature_ranges_panas.
  cbn [mbind outcome_bind]. unfold explode_array.
  destruct (fungsi_trapezium_unit x 0 0 23 25) as (q1 & -> & H1).
  cbn [mbind outcome_bind].
  destruct (fungsi_segitiga_unit x 24 27 30) as (q2 & -> & H2).
  cbn [mbind outcome_bind].
  destruct (fungsi_trapezium_unit x 28 30 45 45) as (q3 & -> & H3).
  cbn [mbind outcome_bind].
  eexists. split; [reflexivity|]. unit_dict.
Qed.

Lemma unit_degrees_degree_mapping (x : gmap string pyval) :
  unit_degrees x -> degree_mapping x.
Proof.
  intros H k v Hk. destruct (H k v Hk) as (q & -> & _). reflexivity.
Qed.

Lemma rules_levels : Forall (fun r => (1 <= level r <= 2)%Z) rules.
Proof. apply (bool_decide_unpack _). vm_compute. exact I. Qed.

Lemma weighted_min_nonneg (d1 d2 d3 : Q) :
  0 <= d1 -> 0 <= d2 -> 0 <= d3 -> 0 <= weighted_min d1 d2 d3.
Proof.
  intros H1 H2 H3. unfold weighted_min.
  apply Q.min_glb; [apply Q.min_glb|]; lra.
Qed.

(** Every entry [fuzzy_rules] builds from unit-interval degrees is graded. *)
Lemma spec_fire_graded (x1 x2 x3 : gmap string pyval) :
  unit_degrees x1 -> unit_degrees x2 -> unit_degrees x3 ->
  Forall graded (or_sentinel (omap (spec_fire x1 x2 x3) rules)).
Proof.
  intros U1 U2 U3.
  assert (H : Forall graded (omap (spec_fire x1 x2 x3) rules)).
  { apply Forall_forall. intros f Hf.
    apply list_elem_of_omap in Hf. destruct Hf as ([[[t p] m] o] & Hr & Hf).
    pose proof (proj1 (Forall_forall _ _) rules_levels _ Hr) as Hlevel.
    unfold spec_fire in Hf.
    destruct (x1 !! t) as [v1|] eqn:E1; [|discriminate].
    destruct (U1 _ _ E1) as (d1 & -> & Hd1).
    destruct (x2 !! p) as [v2|] eqn:E2; [|discriminate].
    destruct (U2 _ _ E2) as (d2 & -> & Hd2).
    destruct (x3 !! m) as [v3|] eqn:E3; [|discriminate].
    destruct (U3 _ _ E3) as (d3 & -> & Hd3).
    injection Hf as <-. exists (weighted_min d1 d2 d3).
    split; [reflexivity|]. split; [|right; exact Hlevel].
    apply weighted_min_nonneg; lra. }
  unfold or_sentinel. destruct (omap (spec_fire x1 x2 x3) rules).
  - apply Forall_cons. split; [|apply Forall_nil; exact I].
    exists 0. split; [reflexivity|]. split; [lra|left; reflexivity].
  - exact H.
Qed.

Lemma graded_firings_of (rs : list firing) :
  Forall graded rs -> exists l, rs = firings_of l /\ Forall graded_pair l.
Proof.
  induction 1 as [|[v o] rs (s & Hs & Hge & Ho) _ (l & -> & Hl)].
  - exists []. split; [reflexivity|constructor].
  - simpl in Hs, Ho. subst v. exists ((s, o) :: l).
    split; [reflexivity|]. constructor; [|exact Hl]. split; assumption.
Qed.

(** With graded pairs the weighted sum lies between one and two times the
    sum of the strengths, which is not negative. *)
Lemma graded_sums (l : list (Q * Z)) :
  Forall graded_pair l ->
  0 <= strength_sum l /\
  strength_sum l <= weighted_sum l <= 2 * strength_sum l.
Proof.
  induction 1 as [|[s o] l [Hs Ho] _ (IH0 & IH1 & IH2)]; simpl in *.
  - lra.
  - assert (Hp : s <= s * inject_Z o <= 2 * s).
    { destruct Ho as [Hz|Ho].
      - rewrite Hz. lra.
      - assert (Ho' : o = 1%Z \/ o = 2%Z) by lia.
        destruct Ho' as [-> | ->].
        + change (inject_Z 1) with 1. lra.
        + change (inject_Z 2) with 2. lra. }
    lra.
Qed.

Lemma defuzzification_graded (rs : list firing) :
  Forall graded rs ->
  exists r, defuzzification rs = Ret (Num r) /\ (r = 0 \/ 1 <= r <= 2).
Proof.
  intros H. destruct (graded_firings_of rs H) as (l & -> & Hl).
  destruct (graded_sums l Hl) as (H0 & H1 & H2).
  destruct (defuzzification_firings l) as [Hz Hnz].
  destruct (Qeq_bool (strength_sum l) 0) eqn:E; reflect_cmp.
  - exists 0. split; [exact (Hz E)|left; reflexivity].
  - eexists. split; [exact (Hnz E)|]. right.
    apply round2_between_1_2.
    assert (Hpos : 0 < strength_sum l) by lra.
    split.
    + apply Qle_shift_div_l; [exact Hpos|]. lra.
    + apply Qle_shift_div_r; [exact Hpos|]. lra.
Qed.

Lemma observation_tds (ph tds water_temp : Q) :
  getitem (observation ph tds water_temp) "tds" = Ret tds.
Proof. vm_compute. reflexivity. Qed.

Lemma observation_ph (ph tds water_temp : Q) :
  getitem (observation ph tds water_temp) "ph" = Ret ph.
Proof. vm_compute. reflexivity. Qed.

Lemma observation_water_temp (ph tds water_temp : Q) :
  getitem (observation ph tds water_temp) "water_temp" = Ret water_temp.
Proof. vm_compute. reflexivity. Qed.

Lemma bind_Ret {A B : Type} (f : A -> outcome B) (m : outcome A) (a : A) :
  m = Ret a -> m ≫= f = f a.
Proof. intros ->. reflexivity. Qed.

(** Runs the first step of a chain of binds, whose outcome [H] gives. *)
Ltac run_step H := refine (eq_trans (bind_Ret _ _ _ H) _); cbv beta.

(** [get_z_result] is the composition of its steps. *)
Lemma get_z_result_steps (row : gmap string Q) (tds ph water_temp : Q)
    (tds_mf ph_mf temp_mf : gmap string pyval) (rs : list firing) :
  getitem row "tds" = Ret tds ->
  tds_membership tds = Ret tds_mf ->
  getitem row "ph" = Ret ph ->
  ph_membership ph = Ret ph_mf ->
  getitem row "water_temp" = Ret water_temp ->
  temp_membership water_temp = Ret temp_mf ->
  fuzzy_rules tds_mf ph_mf temp_mf = Ret rs ->
  get_z_result row = defuzzification rs.
Proof.
  intros H1 H2 H3 H4 H5 H6 H7. unfold get_z_result.
  run_step H1. run_step H2. run_step H3. run_step H4. run_step H5.
  run_step H6. exact (bind_Ret _ _ _ H7).
Qed.

(** * Further properties of the code *)

(** ** Shape of the scalar membership functions *)

(** The value of the trapezoid, branch by branch. *)
Lemma fungsi_trapezium_cases (x a b c d : Q) :
  exists q, fungsi_trapezium x [a; b; c; d] = Ret (Num q) /\
    (((x <= a \/ d <= x) /\ q = 0) \/
     (a < x /\ x <= b /\ x < d /\ q == (x - a) / (b - a) /\ 0 < q <= 1
      /\ (x < b \/ q == 1)) \/
     (a < x /\ b < x /\ x <= c /\ x < d /\ q = 1) \/
     (a < x /\ b < x /\ c < x /\ x < d /\ q == (d - x) / (d - c)
      /\ 0 < q /\ q < 1)).
Proof.
  unfold fungsi_trapezium.
  destruct (Qle_bool x a || Qle_bool d x)%bool eqn:E1.
  { exists 0. split; [reflexivity|]. left. split; [|reflexivity].
    reflect_cmp; lra. }
  destruct (Qlt_bool a x && Qle_bool x b)%bool eqn:E2.
  { reflect_cmp. unfold np_div.
    destruct (Qeq_bool (b - a) 0) eqn:E; reflect_cmp; [lra|].
    eexists. split; [reflexivity|]. right. left.
    do 3 (split; [lra|]). split; [reflexivity|]. split; [split|].
    - apply Qlt_shift_div_l; lra.
    - apply Qle_shift_div_r; lra.
    - destruct (Qlt_le_dec x b) as [Hlt|Hge]; [left; exact Hlt|right].
      assert (Hx : x - a == b - a) by lra. rewrite Hx.
      apply Qmult_inv_r. exact E. }
  destruct (Qlt_bool b x && Qle_bool x c)%bool eqn:E3.
  { exists 1. split; [reflexivity|]. right. right. left.
    reflect_cmp; do 4 (split; [lra|]); reflexivity. }
  destruct (Qlt_bool c x && Qlt_bool x d)%bool eqn:E4.
  { reflect_cmp; try lra. unfold np_div.
    destruct (Qeq_bool (d - c) 0) eqn:E; reflect_cmp; [lra|].
    eexists. split; [reflexivity|]. right. right. right.
    do 4 (split; [lra|]). split; [reflexivity|]. split.
    - apply Qlt_shift_div_l; lra.
    - apply Qlt_shift_div_r; lra. }
  exfalso. reflect_cmp; lra.
Qed.

(** The value of the triangle, branch by branch. *)
Lemma fungsi_segitiga_cases (x a b c : Q) :
  exists q, fungsi_segitiga x [a; b; c] = Ret (Num q) /\
    (((x <= a \/ c <= x) /\ q = 0) \/
     (a < x /\ x <= b /\ x < c /\ q == (x - a) / (b - a) /\ 0 < q <= 1
      /\ (x < b \/ q == 1)) \/
     (a < x /\ b < x /\ x < c /\ q == (c - x) / (c - b) /\ 0 < q /\ q < 1)).
Proof.
  unfold fungsi_segitiga.
  destruct (Qle_bool x a || Qle_bool c x)%bool eqn:E1.
  { exists 0. split; [reflexivity|]. left. split; [|reflexivity].
    reflect_cmp; lra. }
  destruct (Qlt_bool a x && Qle_bool x b)%bool eqn:E2.
  { reflect_cmp. unfold np_div.
    destruct (Qeq_bool (b - a) 0) eqn:E; reflect_cmp; [lra|].
    eexists. split; [reflexivity|]. right. left.
    do 3 (split; [lra|]). split; [reflexivity|]. split; [split|].
    - apply Qlt_shift_div_l; lra.
    - apply Qle_shift_div_r; lra.
    - destruct (Qlt_le_dec x b) as [Hlt|Hge]; [left; exact Hlt|right].
      assert (Hx : x - a == b - a) by lra. rewrite Hx.
      apply Qmult_inv_r. exact E. }
  destruct (Qlt_bool b x && Qlt_bool x c)%bool eqn:E3.
  { reflect_cmp; try lra. unfold np_div.
    destruct (Qeq_bool (c - b) 0) eqn:E; reflect_cmp; [lra|].
    eexists. split; [reflexivity|]. right. right.
    do 3 (split; [lra|]). split; [reflexivity|]. split.
    - apply Qlt_shift_div_l; lra.
    - apply Qlt_shift_div_r; lra. }
  exfalso. reflect_cmp; lra.
Qed.

Lemma div_le_mono (u v p : Q) : 0 < p -> u <= v -> u / p <= v / p.
Proof.
  intros Hp Huv. unfold Qdiv. apply Qmult_le_compat_r; [exact Huv|].
  apply Qinv_le_0_compat. lra.
Qed.

(** X1: the degree a scalar membership function returns is positive exactly
    when the input lies strictly between the outer breakpoints ([a < x < c]
    for the triangle, [a < x < d] for the trapezoid), whatever the
    parameters; everywhere else it is 0. *)
Theorem membership_support (x a b c d : Q) :
  (exists q, fungsi_segitiga x [a; b; c] = Ret (Num q) /\
             (0 < q <-> a < x /\ x < c) /\ (~ 0 < q -> q = 0)) /\
  (exists q, fungsi_trapezium x [a; b; c; d] = Ret (Num q) /\
             (0 < q <-> a < x /\ x < d) /\ (~ 0 < q -> q = 0)).
Proof.
  split.
  - destruct (fungsi_segitiga_cases x a b c)
      as (q & E & [(H & ->) | [H | H]]).
    + exists 0. split; [exact E|]. split; [split; lra|reflexivity].
    + exists q. split; [exact E|]. split; [split; lra|intros Hn; lra].
    + exists q. split; [exact E|]. split; [split; lra|intros Hn; lra].
  - destruct (fungsi_trapezium_cases x a b c d)
      as (q & E & [(H & ->) | [H | [H | H]]]).
    + exists 0. split; [exact E|]. split; [split; lra|reflexivity].
    + exists q. split; [exact E|]. split; [split; lra|intros Hn; lra].
    + destruct H as (? & ? & ? & ? & ->).
      exists 1. split; [exact E|]. split; [split; lra|intros Hn; lra].
    + exists q. split; [exact E|]. split; [split; lra|intros Hn; lra].
Qed.

(** X2: for a triangle with [a < b < c] the scalar function returns 0 at
    [x = a] and at [x = c] and 1 at the peak [x = b]; when the peak
    coincides with an outer breakpoint ([b = a] or [b = c]) it returns 0 at
    [x = b]. *)
Theorem fungsi_segitiga_breakpoints (a b c : Q) :
  (a < b -> b < c ->
   fungsi_segitiga a [a; b; c] = Ret (Num 0) /\
   fungsi_segitiga c [a; b; c] = Ret (Num 0) /\
   exists q, fungsi_segitiga b [a; b; c] = Ret (Num q) /\ q == 1) /\
  (b == a \/ b == c -> fungsi_segitiga b [a; b; c] = Ret (Num 0)).
Proof.
  split.
  - intros Hab Hbc. split; [|split].
    + destruct (fungsi_segitiga_cases a a b c)
        as (q & E & [(H & ->) | [H | H]]); [exact E|lra|lra].
    + destruct (fungsi_segitiga_cases c a b c)
        as (q & E & [(H & ->) | [H | H]]); [exact E|lra|lra].
    + destruct (fungsi_segitiga_cases b a b c)
        as (q & E & [(H & ->) | [H | H]]); [lra| |lra].
      exists q. split; [exact E|].
      destruct H as (_ & _ & _ & _ & _ & [Hlt | Hq]); [lra|exact Hq].
  - intros H.
    destruct (fungsi_segitiga_cases b a b c)
      as (q & E & [(_ & ->) | [H' | H']]); [exact E|lra|lra].
Qed.

Lemma fungsi_segitiga_breakpoints_witness :
  (6 < 7 /\ 7 < 8 /\
   fungsi_segitiga 6 [6; 7; 8] = Ret (Num 0) /\
   fungsi_segitiga 8 [6; 7; 8] = Ret (Num 0) /\
   exists q, fungsi_segitiga 7 [6; 7; 8] = Ret (Num q) /\ q == 1) /\
  ((5 == 5 \/ 5 == 9) /\ fungsi_segitiga 5 [5; 5; 9] = Ret (Num 0)).
Proof.
  split.
  - split; [reflexivity|]. split; [reflexivity|].
    apply (proj1 (fungsi_segitiga_breakpoints 6 7 8)); reflexivity.
  - assert (H : 5 == 5 \/ 5 == 9) by (left; reflexivity).
    split; [exact H|].
    exact (proj2 (fungsi_segitiga_breakpoints 5 5 9) H).
Defined.

(** X3: for a triangle with [a <= b <= c] the scalar function does not
    decrease up to the peak when [b < c] ([x <= y <= b] gives
    [f x <= f y]) and does not increase from the peak on when [a < b]
    ([b <= x <= y] gives [f y <= f x]). *)
Theorem fungsi_segitiga_monotone (a b c x y : Q) :
  a <= b -> b <= c -> x <= y ->
  exists qx qy,
    fungsi_segitiga x [a; b; c] = Ret (Num qx) /\
    fungsi_segitiga y [a; b; c] = Ret (Num qy) /\
    (b < c -> y <= b -> qx <= qy) /\
    (a < b -> b <= x -> qy <= qx).
Proof.
  intros Hab Hbc Hxy.
  destruct (fungsi_segitiga_cases x a b c) as (qx & Ex & Hx).
  destruct (fungsi_segitiga_cases y a b c) as (qy & Ey & Hy).
  exists qx, qy. split; [exact Ex|]. split; [exact Ey|].
  destruct Hx as [(Hx & ->)
    | [(? & ? & ? & Hqx & ? & [? | ?]) | (? & ? & ? & Hqx & ?)]];
  destruct Hy as [(Hy & ->)
    | [(? & ? & ? & Hqy & ? & [? | ?]) | (? & ? & ? & Hqy & ?)]];
  (split; intros; try lra);
  rewrite Hqx, Hqy; apply div_le_mono; lra.
Qed.

Lemma fungsi_segitiga_monotone_witness :
  (24 <= 27 /\ 27 <= 30 /\ 25 <= 26) /\
  exists qx qy,
    fungsi_segitiga 25 [24; 27; 30] = Ret (Num qx) /\
    fungsi_segitiga 26 [24; 27; 30] = Ret (Num qy) /\
    (27 < 30 -> 26 <= 27 -> qx <= qy) /\
    (24 < 27 -> 27 <= 25 -> qy <= qx).
Proof.
  split; [repeat split; discriminate|].
  apply (fungsi_segitiga_monotone 24 27 30 25 26); discriminate.
Defined.

(** X4: for a trapezoid with [a <= b <= c <= d] the scalar function does not
    decrease up to the end of the plateau when [c < d] ([x <= y <= c] gives
    [f x <= f y]) and does not increase from the start of the plateau on
    when [a < b] ([b <= x <= y] gives [f y <= f x]). *)
Theorem fungsi_trapezium_monotone (a b c d x y : Q) :
  a <= b -> b <= c -> c <= d -> x <= y ->
  exists qx qy,
    fungsi_trapezium x [a; b; c; d] = Ret (Num qx) /\
    fungsi_trapezium y [a; b; c; d] = Ret (Num qy) /\
    (c < d -> y <= c -> qx <= qy) /\
    (a < b -> b <= x -> qy <= qx).
Proof.
  intros Hab Hbc Hcd Hxy.
  destruct (fungsi_trapezium_cases x a b c d) as (qx & Ex & Hx).
  destruct (fungsi_trapezium_cases y a b c d) as (qy & Ey & Hy).
  exists qx, qy. split; [exact Ex|]. split; [exact Ey|].
  destruct Hx as [(Hx & ->) | [(? & ? & ? & Hqx & ? & [? | ?])
    | [(? & ? & ? & ? & ->) | (? & ? & ? & ? & Hqx & ?)]]];
  destruct Hy as [(Hy & ->) | [(? & ? & ? & Hqy & ? & [? | ?])
    | [(? & ? & ? & ? & ->) | (? & ? & ? & ? & Hqy & ?)]]];
  (split; intros; try lra);
  rewrite Hqx, Hqy; apply div_le_mono; lra.
Qed.

Lemma fungsi_trapezium_monotone_witness :
  (400 <= 600 /\ 600 <= 900 /\ 900 <= 1100 /\ 950 <= 1000) /\
  exists qx qy,
    fungsi_trapezium 950 [400; 600; 900; 1100] = Ret (Num qx) /\
    fungsi_trapezium 1000 [400; 600; 900; 1100] = Ret (Num qy) /\
    (900 < 1100 -> 1000 <= 900 -> qx <= qy) /\
    (400 < 600 -> 600 <= 950 -> qy <= qx).
Proof.
  split; [repeat split; discriminate|].
  apply (fungsi_trapezium_monotone 400 600 900 1100 950 1000); discriminate.
Defined.

(** ** The vectorised membership function *)

Lemma ratio_cases (n d : Q) :
  0 < d ->
  (n < 0 /\ n / d < 0) \/
  (n == 0 /\ n / d == 0) \/
  (0 < n /\ n < d /\ 0 < n / d /\ n / d < 1) \/
  (n == d /\ n / d == 1) \/
  (d < n /\ 1 < n / d).
Proof.
  intros Hd.
  destruct (Q_dec n 0) as [[Hn | Hn] | Hn].
  - left. split; [exact Hn|]. apply Qlt_shift_div_r; lra.
  - destruct (Q_dec n d) as [[Hnd | Hnd] | Hnd].
    + right. right. left. split; [exact Hn|]. split; [exact Hnd|]. split.
      * apply Qlt_shift_div_l; lra.
      * apply Qlt_shift_div_r; lra.
    + right. right. right. right. split; [exact Hnd|].
      apply Qlt_shift_div_l; lra.
    + right. right. right. left. split; [exact Hnd|].
      rewrite Hnd. apply Qmult_inv_r. lra.
  - right. left. split; [exact Hn|]. rewrite Hn. unfold Qdiv.
    apply Qmult_0_l.
Qed.

Lemma np_true_divide_cases (n d : Q) :
  0 <= d ->
  (d == 0 /\ n < 0 /\ np_true_divide n d = NegInf) \/
  (d == 0 /\ n == 0 /\ np_true_divide n d = NaN) \/
  (d == 0 /\ 0 < n /\ np_true_divide n d = PosInf) \/
  (0 < d /\ np_true_divide n d = Fin (n / d) /\
   ((n < 0 /\ n / d < 0) \/
    (n == 0 /\ n / d == 0) \/
    (0 < n /\ n < d /\ 0 < n / d /\ n / d < 1) \/
    (n == d /\ n / d == 1) \/
    (d < n /\ 1 < n / d))).
Proof.
  intros Hd. unfold np_true_divide.
  destruct (Qeq_bool d 0) eqn:E; reflect_cmp.
  - destruct (Qcompare n 0) eqn:C.
    + apply Qeq_alt in C. right. left. repeat split; assumption.
    + apply Qlt_alt in C. left. repeat split; assumption.
    + apply Qgt_alt in C. right. right. left. repeat split; assumption.
  - right. right. right. assert (Hpos : 0 < d) by lra.
    split; [exact Hpos|]. split; [reflexivity|].
    apply ratio_cases. exact Hpos.
Qed.

(** Case analysis helpers for the clamped expressions. *)
Ltac prune := try (exfalso; lra).

Ltac split_ifs :=
  repeat match goal with
  | |- context [if Qle_bool ?p ?q then _ else _] =>
      let E := fresh "E" in
      destruct (Qle_bool p q) eqn:E; reflect_cmp; prune
  | H : context [if Qle_bool ?p ?q then _ else _] |- _ =>
      let E := fresh "E" in
      destruct (Qle_bool p q) eqn:E; reflect_cmp; prune
  end.

Ltac divide_cases n d :=
  let H := fresh "H" in
  destruct (np_true_divide_cases n d) as
    [(? & ? & ->) | [(? & ? & ->) | [(? & ? & ->) | (? & -> & H)]]];
  [lra| prune | prune | prune |
   destruct H as [(? & ?) | [(? & ?) | [(? & ? & ? & ?) | [(? & ?) | (? & ?)]]]];
   prune].

Lemma triangle_clamp_agrees (x a b c : Q) :
  a <= b -> b <= c ->
  ((a == b /\ x == a) \/ (b == c /\ x == c) ->
   np_maximum (np_minimum (np_true_divide (x - a) (b - a))
                          (np_true_divide (c - x) (c - b))) (Fin 0) = NaN) /\
  (~ ((a == b /\ x == a) \/ (b == c /\ x == c)) ->
   exists q q',
     np_maximum (np_minimum (np_true_divide (x - a) (b - a))
                            (np_true_divide (c - x) (c - b))) (Fin 0) = Fin q /\
     fungsi_segitiga x [a; b; c] = Ret (Num q') /\ q == q').
Proof.
  intros Hab Hbc.
  destruct (fungsi_segitiga_cases x a b c) as (q' & E & Hq').
  destruct Hq' as [(Hx & ->)
    | [(? & ? & ? & Hq' & ? & _) | (? & ? & ? & Hq' & ?)]];
  divide_cases (x - a) (b - a); divide_cases (c - x) (c - b);
  cbn [np_minimum np_maximum]; split_ifs;
  (split;
   [ intros Hdeg; first [reflexivity | exfalso; destruct Hdeg; lra]
   | intros Hnd;
     first [ exfalso; apply Hnd; first [left; split; lra | right; split; lra]
           | eexists; eexists; split; [reflexivity|]; split; [exact E|]; lra ]
   ]).
Qed.

Lemma trapezium_clamp_agrees (x a b c d : Q) :
  a <= b -> b <= c -> c <= d ->
  ((a == b /\ x == a) \/ (c == d /\ x == d) ->
   np_maximum
     (np_minimum (np_minimum (np_true_divide (x - a) (b - a)) (Fin 1))
                 (np_true_divide (d - x) (d - c))) (Fin 0) = NaN) /\
  (~ ((a == b /\ x == a) \/ (c == d /\ x == d)) ->
   exists q q',
     np_maximum
       (np_minimum (np_minimum (np_true_divide (x - a) (b - a)) (Fin 1))
                   (np_true_divide (d - x) (d - c))) (Fin 0) = Fin q /\
     fungsi_trapezium x [a; b; c; d] = Ret (Num q') /\ q == q').
Proof.
  intros Hab Hbc Hcd.
  destruct (fungsi_trapezium_cases x a b c d) as (q' & E & Hq').
  destruct Hq' as [(Hx & ->) | [(? & ? & ? & Hq' & ? & _)
    | [(? & ? & ? & ? & ->) | (? & ? & ? & ? & Hq' & ?)]]];
  divide_cases (x - a) (b - a); divide_cases (d - x) (d - c);
  cbn [np_minimum np_maximum]; split_ifs;
  (split;
   [ intros Hdeg; first [reflexivity | exfalso; destruct Hdeg; lra]
   | intros Hnd;
     first [ exfalso; apply Hnd; first [left; split; lra | right; split; lra]
           | eexists; eexists; split; [reflexivity|]; split; [exact E|]; lra ]
   ]).
Qed.

(** X5: on a NumPy array and a trapezoid with [a <= b <= c <= d],
    [membership_function] returns one value per element, equal to what the
    scalar [fungsi_trapezium] returns for that element, except on a
    zero-width edge ([x = a = b] or [x = c = d]), where the value is NaN. *)
Theorem membership_function_array_trapezium (a b c d : Q) (xs : list Q) :
  a <= b -> b <= c -> c <= d ->
  exists vs,
    membership_function (XArray xs) [a; b; c; d] = MfArray vs /\
    Forall2
      (fun x v =>
         ((a == b /\ x == a) \/ (c == d /\ x == d) -> v = NaN) /\
         (~ ((a == b /\ x == a) \/ (c == d /\ x == d)) ->
          exists q q', v = Fin q /\
                       fungsi_trapezium x [a; b; c; d] = Ret (Num q') /\
                       q == q'))
      xs vs.
Proof.
  intros Hab Hbc Hcd. eexists. split; [reflexivity|].
  induction xs as [|x xs IH]; [constructor|].
  cbn [map]. constructor; [|exact IH].
  apply trapezium_clamp_agrees; assumption.
Qed.

Lemma membership_function_array_trapezium_witness :
  (0 <= 0 /\ 0 <= 6 /\ 6 <= 7) /\
  exists vs,
    membership_function (XArray [0; 3; 13 # 2; 9]) [0; 0; 6; 7] = MfArray vs /\
    Forall2
      (fun x v =>
         ((0 == 0 /\ x == 0) \/ (6 == 7 /\ x == 7) -> v = NaN) /\
         (~ ((0 == 0 /\ x == 0) \/ (6 == 7 /\ x == 7)) ->
          exists q q', v = Fin q /\
                       fungsi_trapezium x [0; 0; 6; 7] = Ret (Num q') /\
                       q == q'))
      [0; 3; 13 # 2; 9] vs.
Proof.
  split; [repeat split; discriminate|].
  apply (membership_function_array_trapezium 0 0 6 7); discriminate.
Defined.

(** X6: on a NumPy array and a triangle with [a <= b <= c],
    [membership_function] returns one value per element, equal to what the
    scalar [fungsi_segitiga] returns for that element, except on a
    zero-width edge ([x = a = b] or [x = b = c]), where the value is NaN. *)
Theorem membership_function_array_segitiga (a b c : Q) (xs : list Q) :
  a <= b -> b <= c ->
  exists vs,
    membership_function (XArray xs) [a; b; c] = MfArray vs /\
    Forall2
      (fun x v =>
         ((a == b /\ x == a) \/ (b == c /\ x == c) -> v = NaN) /\
         (~ ((a == b /\ x == a) \/ (b == c /\ x == c)) ->
          exists q q', v = Fin q /\
                       fungsi_segitiga x [a; b; c] = Ret (Num q') /\
                       q == q'))
      xs vs.
Proof.
  intros Hab Hbc. eexists. split; [reflexivity|].
  induction xs as [|x xs IH]; [constructor|].
  cbn [map]. constructor; [|exact IH].
  apply triangle_clamp_agrees; assumption.
Qed.

Lemma membership_function_array_segitiga_witness :
  (24 <= 27 /\ 27 <= 30) /\
  exists vs,
    membership_function (XArray [20; 25; 27; 29]) [24; 27; 30] = MfArray vs /\
    Forall2
      (fun x v =>
         ((24 == 27 /\ x == 24) \/ (27 == 30 /\ x == 30) -> v = NaN) /\
         (~ ((24 == 27 /\ x == 24) \/ (27 == 30 /\ x == 30)) ->
          exists q q', v = Fin q /\
                       fungsi_segitiga x [24; 27; 30] = Ret (Num q') /\
                       q == q'))
      [20; 25; 27; 29] vs.
Proof.
  split; [repeat split; discriminate|].
  apply (membership_function_array_segitiga 24 27 30); discriminate.
Defined.

Example membership_function_asam_at_zero :
  membership_function (XArray [0; 3]) [0; 0; 6; 7] = MfArray [NaN; Fin 1].
Proof. vm_compute. reflexivity. Qed.

Lemma float_div_some (n d : Q) : ~ d == 0 -> float_div n d = Some (n / d).
Proof.
  intros H. unfold float_div.
  destruct (Qeq_bool d 0) eqn:E; reflect_cmp; [contradiction|reflexivity].
Qed.

Lemma np_true_divide_fin (n d : Q) :
  ~ d == 0 -> np_true_divide n d = Fin (n / d).
Proof.
  intros H. unfold np_true_divide.
  destruct (Qeq_bool d 0) eqn:E; reflect_cmp; [contradiction|reflexivity].
Qed.

(** X8: on a plain Python number and a set whose edges have a width
    ([a < b < c], or [a < b <= c < d]), [membership_function] returns the
    degree the scalar function of that shape returns. *)
Theorem membership_function_float_agrees (x a b c d : Q) :
  (a < b -> b < c ->
   exists q q',
     membership_function (XFloat x) [a; b; c] = MfValue (Fin q) /\
     fungsi_segitiga x [a; b; c] = Ret (Num q') /\ q == q') /\
  (a < b -> b <= c -> c < d ->
   exists q q',
     membership_function (XFloat x) [a; b; c; d] = MfValue (Fin q) /\
     fungsi_trapezium x [a; b; c; d] = Ret (Num q') /\ q == q').
Proof.
  unfold membership_function, explode_array. split.
  - intros Hab Hbc.
    assert (H1 : ~ b - a == 0) by lra. assert (H2 : ~ c - b == 0) by lra.
    rewrite (float_div_some _ _ H1), (float_div_some _ _ H2).
    destruct (triangle_clamp_agrees x a b c) as [_ H]; [lra|lra|].
    rewrite (np_true_divide_fin _ _ H1), (np_true_divide_fin _ _ H2) in H.
    destruct H as (q & q' & Hv & Hs & Hq).
    { intros [[H _] | [H _]]; lra. }
    exists q, q'. rewrite Hv. auto.
  - intros Hab Hbc Hcd.
    assert (H1 : ~ b - a == 0) by lra. assert (H2 : ~ d - c == 0) by lra.
    rewrite (float_div_some _ _ H1), (float_div_some _ _ H2).
    destruct (trapezium_clamp_agrees x a b c d) as [_ H]; [lra|lra|lra|].
    rewrite (np_true_divide_fin _ _ H1), (np_true_divide_fin _ _ H2) in H.
    destruct H as (q & q' & Hv & Hs & Hq).
    { intros [[H _] | [H _]]; lra. }
    exists q, q'. rewrite Hv. auto.
Qed.

Lemma membership_function_float_agrees_witness :
  (6 < 7 /\ 7 < 8 /\
   exists q q',
     membership_function (XFloat (13 # 2)) [6; 7; 8] = MfValue (Fin q) /\
     fungsi_segitiga (13 # 2) [6; 7; 8] = Ret (Num q') /\ q == q') /\
  (400 < 600 /\ 600 <= 900 /\ 900 < 1100 /\
   exists q q',
     membership_function (XFloat 1000) [400; 600; 900; 1100] = MfValue (Fin q) /\
     fungsi_trapezium 1000 [400; 600; 900; 1100] = Ret (Num q') /\ q == q').
Proof.
  split.
  - split; [reflexivity|]. split; [reflexivity|].
    apply (proj1 (membership_function_float_agrees (13 # 2) 6 7 8 0));
      reflexivity.
  - split; [reflexivity|]. split; [discriminate|]. split; [reflexivity|].
    apply (proj2 (membership_function_float_agrees 1000 400 600 900 1100));
      [reflexivity|discriminate|reflexivity].
Defined.

(** ** Fuzzifiers *)

(** The dict each fuzzifier builds, with the degree of each term. *)
Lemma ph_membership_shape (x : Q) :
  exists q1 q2 q3,
    fungsi_trapezium x [0; 0; 6; 7] = Ret (Num q1) /\
    fungsi_segitiga x [6; 7; 8] = Ret (Num q2) /\
    fungsi_trapezium x [7; 8; 14; 14] = Ret (Num q3) /\
    ph_membership x
    = Ret {[ "Asam" := Num q1; "Optimal" := Num q2; "Basa" := Num q3 ]}.
Proof.
  destruct (fungsi_trapezium_unit x 0 0 6 7) as (q1 & E1 & _).
  destruct (fungsi_segitiga_unit x 6 7 8) as (q2 & E2 & _).
  destruct (fungsi_trapezium_unit x 7 8 14 14) as (q3 & E3 & _).
  exists q1, q2, q3. do 3 (split; [assumption|]).
  unfold ph_membership.
  run_step ph_ranges_asam. unfold explode_array. run_step E1.
  run_step ph_ranges_optimal. run_step E2.
  run_step ph_ranges_basa. run_step E3. reflexivity.
Qed.

Lemma tds_membership_shape (x : Q) :
  exists q1 q2 q3 q4,
    fungsi_trapezium x [0; 0; 400; 600] = Ret (Num q1) /\
    fungsi_trapezium x [400; 600; 900; 1100] = Ret (Num q2) /\
    fungsi_trapezium x [900; 1100; 1800; 2000] = Ret (Num q3) /\
    fungsi_trapezium x [1800; 2000; 3000; 3000] = Ret (Num q4) /\
    tds_membership x
    = Ret {[ "Sangat Rendah" := Num q1; "Rendah" := Num q2;
             "Optimal" := Num q3; "Tinggi" := Num q4 ]}.
Proof.
  destruct (fungsi_trapezium_unit x 0 0 400 600) as (q1 & E1 & _).
  destruct (fungsi_trapezium_unit x 400 600 900 1100) as (q2 & E2 & _).
  destruct (fungsi_trapezium_unit x 900 1100 1800 2000) as (q3 & E3 & _).
  destruct (fungsi_trapezium_unit x 1800 2000 3000 3000) as (q4 & E4 & _).
  exists q1, q2, q3, q4. do 4 (split; [assumption|]).
  unfold tds_membership.
  run_step tds_ranges_sangat_rendah. unfold explode_array. run_step E1.
  run_step tds_ranges_rendah. run_step E2.
  run_step tds_ranges_optimal. run_step E3.
  run_step tds_ranges_tinggi. run_step E4. reflexivity.
Qed.

Lemma temp_membership_shape (x : Q) :
  exists q1 q2 q3,
    fungsi_trapezium x [0; 0; 23; 25] = Ret (Num q1) /\
    fungsi_segitiga x [24; 27; 30] = Ret (Num q2) /\
    fungsi_trapezium x [28; 30; 45; 45] = Ret (Num q3) /\
    temp_membership x
    = Ret {[ "Dingin" := Num q1; "Optimal" := Num q2; "Panas" := Num q3 ]}.
Proof.
  destruct (fungsi_trapezium_unit x 0 0 23 25) as (q1 & E1 & _).
  destruct (fungsi_segitiga_unit x 24 27 30) as (q2 & E2 & _).
  destruct (fungsi_trapezium_unit x 28 30 45 45) as (q3 & E3 & _).
  exists q1, q2, q3. do 3 (split; [assumption|]).
  unfold temp_membership.
  run_step temperature_ranges_dingin. unfold explode_array. run_step E1.
  run_step temperature_ranges_optimal. run_step E2.
  run_step temperature_ranges_panas. run_step E3. reflexivity.
Qed.

(** X9: for every finite number as input (NaN is not one) the three
    fuzzifiers return a dict (they raise nothing and hold no [None]) whose
    terms are exactly those of the variable's table, each with a degree that
    is a number of [[0, 1]]. *)
Theorem fuzzifiers_total (x : Q) :
  (exists m, ph_membership x = Ret m /\
             dom m = dom PH_RANGES /\ unit_degrees m) /\
  (exists m, tds_membership x = Ret m /\
             dom m = dom TDS_RANGES /\ unit_degrees m) /\
  (exists m, temp_membership x = Ret m /\
             dom m = dom TEMPERATURE_RANGES /\ unit_degrees m).
Proof.
  split; [|split].
  - destruct (ph_membership_shape x) as (q1 & q2 & q3 & _ & _ & _ & E).
    destruct (ph_membership_unit x) as (m & E' & U).
    rewrite E in E'. injection E' as <-.
    eexists. split; [exact E|]. split; [|exact U].
    unfold PH_RANGES. rewrite !dom_insert_L, !dom_singleton_L. reflexivity.
  - destruct (tds_membership_shape x) as (q1 & q2 & q3 & q4 & _ & _ & _ & _ & E).
    destruct (tds_membership_unit x) as (m & E' & U).
    rewrite E in E'. injection E' as <-.
    eexists. split; [exact E|]. split; [|exact U].
    unfold TDS_RANGES. rewrite !dom_insert_L, !dom_singleton_L. reflexivity.
  - destruct (temp_membership_shape x) as (q1 & q2 & q3 & _ & _ & _ & E).
    destruct (temp_membership_unit x) as (m & E' & U).
    rewrite E in E'. injection E' as <-.
    eexists. split; [exact E|]. split; [|exact U].
    unfold TEMPERATURE_RANGES.
    rewrite !dom_insert_L, !dom_singleton_L. reflexivity.
Qed.

(** ** Rule engine: entries, sentinel, bounds *)

Lemma rules_terms :
  Forall (fun r : rule =>
            r.1.1.1 ∈ tds_terms /\ r.1.1.2 ∈ ph_terms /\ r.1.2 ∈ temp_terms)
         rules.
Proof. apply (bool_decide_unpack _). vm_compute. exact I. Qed.

Lemma omap_all_some {A B C : Type} (f : A -> option B) (g : B -> C)
    (h : A -> C) (l : list A) :
  Forall (fun a => exists y, f a = Some y /\ g y = h a) l ->
  g <$> omap f l = h <$> l.
Proof.
  induction 1 as [|a l (y & Hy & Hg) _ IH]; [reflexivity|].
  cbn [omap list_omap]. rewrite Hy. cbn [fmap list_fmap].
  cbn [fmap list_fmap] in IH. rewrite Hg. f_equal. exact IH.
Qed.

Lemma spec_fire_all_some (x1 x2 x3 : gmap string pyval) :
  degree_mapping x1 -> degree_mapping x2 -> degree_mapping x3 ->
  Forall (fun t => is_Some (x1 !! t)) tds_terms ->
  Forall (fun t => is_Some (x2 !! t)) ph_terms ->
  Forall (fun t => is_Some (x3 !! t)) temp_terms ->
  Forall (fun r => exists y, spec_fire x1 x2 x3 r = Some y /\ output y = level r)
         rules.
Proof.
  intros D1 D2 D3 T1 T2 T3.
  rewrite Forall_forall in T1, T2, T3.
  eapply Forall_impl; [exact rules_terms|].
  intros [[[t p] m] o] (Ht & Hp & Hm). cbn in Ht, Hp, Hm.
  destruct (T1 _ Ht) as [v1 E1]. destruct (T2 _ Hp) as [v2 E2].
  destruct (T3 _ Hm) as [v3 E3].
  destruct (degree_mapping_lookup _ _ _ D1 E1) as [d1 ->].
  destruct (degree_mapping_lookup _ _ _ D2 E2) as [d2 ->].
  destruct (degree_mapping_lookup _ _ _ D3 E3) as [d3 ->].
  unfold spec_fire. rewrite E1, E2, E3. eexists. split; reflexivity.
Qed.

(** X10: on three membership-degree mappings that hold every term of their
    variable, [fuzzy_rules] returns exactly 36 entries, one per rule in the
    order of the rule base, each with the output of its rule. *)
Theorem fuzzy_rules_complete (x1 x2 x3 : gmap string pyval) :
  degree_mapping x1 -> degree_mapping x2 -> degree_mapping x3 ->
  Forall (fun t => is_Some (x1 !! t)) tds_terms ->
  Forall (fun t => is_Some (x2 !! t)) ph_terms ->
  Forall (fun t => is_Some (x3 !! t)) temp_terms ->
  exists rs, fuzzy_rules x1 x2 x3 = Ret rs /\
             length rs = 36%nat /\ output <$> rs = level <$> rules.
Proof.
  intros D1 D2 D3 T1 T2 T3.
  pose proof (omap_all_some _ output level _
                (spec_fire_all_some x1 x2 x3 D1 D2 D3 T1 T2 T3)) as Hout.
  pose proof (fuzzy_rules_spec x1 x2 x3 D1 D2 D3) as E.
  assert (Hlen : length (omap (spec_fire x1 x2 x3) rules) = 36%nat).
  { rewrite <- (length_fmap output), Hout, length_fmap. reflexivity. }
  destruct (omap (spec_fire x1 x2 x3) rules) as [|f rs] eqn:Eo;
    [discriminate Hlen|].
  exists (f :: rs). split; [exact E|]. split; [exact Hlen|exact Hout].
Qed.

Lemma fuzzy_rules_complete_witness :
  let x1 : gmap string pyval :=
    {[ "Sangat Rendah" := Num 0; "Rendah" := Num (1 # 2);
       "Optimal" := Num (1 # 2); "Tinggi" := Num 0 ]} in
  let x2 : gmap string pyval :=
    {[ "Asam" := Num 0; "Optimal" := Num 1; "Basa" := Num 0 ]} in
  let x3 : gmap string pyval :=
    {[ "Dingin" := Num 0; "Optimal" := Num (1 # 3); "Panas" := Num 0 ]} in
  (degree_mapping x1 /\ degree_mapping x2 /\ degree_mapping x3 /\
   Forall (fun t => is_Some (x1 !! t)) tds_terms /\
   Forall (fun t => is_Some (x2 !! t)) ph_terms /\
   Forall (fun t => is_Some (x3 !! t)) temp_terms) /\
  exists rs, fuzzy_rules x1 x2 x3 = Ret rs /\
             length rs = 36%nat /\ output <$> rs = level <$> rules.
Proof.
  intros x1 x2 x3.
  assert (D1 : degree_mapping x1)
    by (apply (bool_decide_unpack _); vm_compute; exact I).
  assert (D2 : degree_mapping x2)
    by (apply (bool_decide_unpack _); vm_compute; exact I).
  assert (D3 : degree_mapping x3)
    by (apply (bool_decide_unpack _); vm_compute; exact I).
  assert (T1 : Forall (fun t => is_Some (x1 !! t)) tds_terms)
    by (apply (bool_decide_unpack _); vm_compute; exact I).
  assert (T2 : Forall (fun t => is_Some (x2 !! t)) ph_terms)
    by (apply (bool_decide_unpack _); vm_compute; exact I).
  assert (T3 : Forall (fun t => is_Some (x3 !! t)) temp_terms)
    by (apply (bool_decide_unpack _); vm_compute; exact I).
  split; [auto 10|].
  exact (fuzzy_rules_complete x1 x2 x3 D1 D2 D3 T1 T2 T3).
Defined.

(** A rule one of whose terms is missing is passed over, whatever the
    mappings hold for the others. *)
Lemma fuzzy_rules_loop_skip (x1 x2 x3 : gmap string pyval) (rs : list rule) :
  Forall (fun r : rule =>
            x1 !! r.1.1.1 = None \/ x2 !! r.1.1.2 = None \/ x3 !! r.1.2 = None)
         rs ->
  forall results, fuzzy_rules_loop x1 x2 x3 rs results = Ret results.
Proof.
  induction 1 as [|[[[t p] m] o] rs Hr _ IH]; intros results; [reflexivity|].
  cbn [fuzzy_rules_loop]. cbn in Hr.
  destruct Hr as [-> | [E | E]]; [apply IH| |].
  - destruct (x1 !! t); [rewrite E|]; apply IH.
  - destruct (x1 !! t); [|apply IH].
    destruct (x2 !! p); [|apply IH]. rewrite E. apply IH.
Qed.

(** X11: when one of the three mappings holds none of its variable's terms
    (whatever else the mappings hold), no rule is evaluated, [fuzzy_rules]
    returns the single sentinel entry of strength 0 and output 0, and the
    defuzzifier turns it into the score 0. *)
Theorem fuzzy_rules_sentinel (x1 x2 x3 : gmap string pyval) :
  Forall (fun t => x1 !! t = None) tds_terms \/
  Forall (fun t => x2 !! t = None) ph_terms \/
  Forall (fun t => x3 !! t = None) temp_terms ->
  fuzzy_rules x1 x2 x3 = Ret [mk_firing (Num 0) 0] /\
  defuzzification [mk_firing (Num 0) 0] = Ret (Num 0).
Proof.
  intros H. split; [|vm_compute; reflexivity].
  unfold fuzzy_rules.
  rewrite (fuzzy_rules_loop_skip x1 x2 x3 rules); [reflexivity|].
  eapply Forall_impl; [exact rules_terms|].
  intros [[[t p] m] o] (Ht & Hp & Hm). cbn in *.
  destruct H as [H | [H | H]]; rewrite Forall_forall in H; auto.
Qed.

Lemma fuzzy_rules_sentinel_witness :
  let x1 : gmap string pyval := {[ "Optimal" := Num 1; "Rendah" := PyNone ]} in
  let x2 : gmap string pyval := {[ "optimal" := Num 1 ]} in
  let x3 : gmap string pyval := {[ "Optimal" := Num 1 ]} in
  (Forall (fun t => x1 !! t = None) tds_terms \/
   Forall (fun t => x2 !! t = None) ph_terms \/
   Forall (fun t => x3 !! t = None) temp_terms) /\
  fuzzy_rules x1 x2 x3 = Ret [mk_firing (Num 0) 0] /\
  defuzzification [mk_firing (Num 0) 0] = Ret (Num 0).
Proof.
  intros x1 x2 x3.
  assert (H : Forall (fun t => x1 !! t = None) tds_terms \/
              Forall (fun t => x2 !! t = None) ph_terms \/
              Forall (fun t => x3 !! t = None) temp_terms).
  { right. left. apply (bool_decide_unpack _). vm_compute. exact I. }
  split; [exact H|]. exact (fuzzy_rules_sentinel x1 x2 x3 H).
Defined.

Lemma weighted_min_le_fifth (d1 d2 d3 : Q) :
  d2 <= 1 -> weighted_min d1 d2 d3 <= 1 # 5.
Proof.
  intros H. unfold weighted_min.
  eapply Qle_trans; [apply Q.le_min_l|].
  eapply Qle_trans; [apply Q.le_min_r|]. lra.
Qed.

(** X12: on mappings whose degrees lie in [[0, 1]] every entry
    [fuzzy_rules] returns has a firing strength that is a number between 0
    and 0.2: the weight of pH caps the weighted minimum at 0.2. *)
Theorem fuzzy_rules_strength_bound (x1 x2 x3 : gmap string pyval) :
  unit_degrees x1 -> unit_degrees x2 -> unit_degrees x3 ->
  exists rs, fuzzy_rules x1 x2 x3 = Ret rs /\
    Forall (fun f => exists s, firing_strength f = Num s /\ 0 <= s <= 1 # 5)
           rs.
Proof.
  intros U1 U2 U3. eexists.
  split; [apply fuzzy_rules_spec; apply unit_degrees_degree_mapping;
          assumption|].
  assert (H : Forall (fun f => exists s, firing_strength f = Num s
                                         /\ 0 <= s <= 1 # 5)
                     (omap (spec_fire x1 x2 x3) rules)).
  { apply Forall_forall. intros f Hf.
    apply list_elem_of_omap in Hf. destruct Hf as ([[[t p] m] o] & _ & Hf).
    unfold spec_fire in Hf.
    destruct (x1 !! t) as [v1|] eqn:E1; [|discriminate].
    destruct (U1 _ _ E1) as (d1 & -> & Hd1).
    destruct (x2 !! p) as [v2|] eqn:E2; [|discriminate].
    destruct (U2 _ _ E2) as (d2 & -> & Hd2).
    destruct (x3 !! m) as [v3|] eqn:E3; [|discriminate].
    destruct (U3 _ _ E3) as (d3 & -> & Hd3).
    injection Hf as <-. eexists. split; [reflexivity|]. split.
    - apply weighted_min_nonneg; lra.
    - apply weighted_min_le_fifth. lra. }
  unfold or_sentinel. destruct (omap (spec_fire x1 x2 x3) rules); [|exact H].
  apply Forall_cons. split; [|apply Forall_nil; exact I].
  exists 0. split; [reflexivity|]. split; discriminate.
Qed.

Lemma fuzzy_rules_strength_bound_witness :
  let x1 : gmap string pyval := {[ "Optimal" := Num 1; "Tinggi" := Num 0 ]} in
  let x2 : gmap string pyval := {[ "Optimal" := Num (1 # 2) ]} in
  let x3 : gmap string pyval := {[ "Optimal" := Num 1 ]} in
  (unit_degrees x1 /\ unit_degrees x2 /\ unit_degrees x3) /\
  exists rs, fuzzy_rules x1 x2 x3 = Ret rs /\
    Forall (fun f => exists s, firing_strength f = Num s /\ 0 <= s <= 1 # 5)
           rs.
Proof.
  intros x1 x2 x3.
  assert (U1 : unit_degrees x1).
  { unfold unit_degrees, x1. apply map_Forall_insert_2.
    - exists 1. split; [reflexivity|]. split; discriminate.
    - apply map_Forall_singleton.
      exists 0. split; [reflexivity|]. split; discriminate. }
  assert (U2 : unit_degrees x2).
  { unfold unit_degrees, x2. apply map_Forall_singleton.
    exists (1 # 2). split; [reflexivity|]. split; discriminate. }
  assert (U3 : unit_degrees x3).
  { unfold unit_degrees, x3. apply map_Forall_singleton.
    exists 1. split; [reflexivity|]. split; discriminate. }
  split; [auto|].
  exact (fuzzy_rules_strength_bound x1 x2 x3 U1 U2 U3).
Defined.

(** ** Defuzzifier: range *)

(** Two sequences with the same two sums defuzzify to the same score. *)
Lemma defuzzification_same_sums (l l' : list (Q * Z)) :
  strength_sum l == strength_sum l' -> weighted_sum l == weighted_sum l' ->
  defuzzification (firings_of l) = defuzzification (firings_of l').
Proof.
  intros Hs Hw.
  destruct (defuzzification_firings l) as [Hz Hnz].
  destruct (defuzzification_firings l') as [Hz' Hnz'].
  destruct (Qeq_dec (strength_sum l) 0) as [E|E].
  - rewrite (Hz E). symmetry. apply Hz'. rewrite <- Hs. exact E.
  - rewrite (Hnz E). assert (E' : ~ strength_sum l' == 0) by (rewrite <- Hs; exact E).
    rewrite (Hnz' E'). do 2 f_equal. apply round2_proper.
    rewrite Hs, Hw. reflexivity.
Qed.

Lemma round2_between (lo hi : Z) (v : Q) :
  inject_Z lo <= v <= inject_Z hi ->
  inject_Z lo <= round2 v <= inject_Z hi.
Proof.
  intros [Hlo Hhi]. unfold round2.
  destruct (round_half_even_nearest (v * 100)) as [Hn _].
  set (n := round_half_even (v * 100)) in *.
  apply Qabs_Qle_condition in Hn.
  assert (H1 : (100 * lo - 1 < n)%Z).
  { rewrite Zlt_Qlt. unfold Z.sub.
    rewrite inject_Z_plus, inject_Z_mult.
    change (inject_Z 100) with 100. change (inject_Z (- (1))) with (- (1)).
    lra. }
  assert (H2 : (n < 100 * hi + 1)%Z).
  { rewrite Zlt_Qlt. rewrite inject_Z_plus, inject_Z_mult.
    change (inject_Z 100) with 100. change (inject_Z 1) with 1. lra. }
  assert (H3 : (100 * lo <= n)%Z) by lia.
  assert (H4 : (n <= 100 * hi)%Z) by lia.
  rewrite Zle_Qle in H3, H4. rewrite inject_Z_mult in H3, H4.
  change (inject_Z 100) with 100 in H3, H4.
  split.
  - apply Qle_shift_div_l; [reflexivity|]. lra.
  - apply Qle_shift_div_r; [reflexivity|]. lra.
Qed.

Lemma sums_between (lo hi : Z) (l : list (Q * Z)) :
  Forall (fun so => 0 <= fst so /\ (lo <= snd so <= hi)%Z) l ->
  0 <= strength_sum l /\
  inject_Z lo * strength_sum l <= weighted_sum l /\
  weighted_sum l <= inject_Z hi * strength_sum l.
Proof.
  induction 1 as [|[s o] l [Hs [Ho1 Ho2]] _ (IH0 & IH1 & IH2)]; simpl in *.
  - lra.
  - rewrite Zle_Qle in Ho1, Ho2.
    assert (H1 : 0 <= s * (inject_Z o - inject_Z lo))
      by (apply Qmult_le_0_compat; lra).
    assert (H2 : 0 <= s * (inject_Z hi - inject_Z o))
      by (apply Qmult_le_0_compat; lra).
    split; [lra|]. split.
    + setoid_replace (inject_Z lo * (s + strength_sum l))
        with (s * inject_Z o - s * (inject_Z o - inject_Z lo)
              + inject_Z lo * strength_sum l) using relation Qeq by ring.
      lra.
    + setoid_replace (inject_Z hi * (s + strength_sum l))
        with (s * inject_Z o + s * (inject_Z hi - inject_Z o)
              + inject_Z hi * strength_sum l) using relation Qeq by ring.
      lra.
Qed.

(** X15: when no strength is negative and the strengths do not sum to 0,
    the score lies between the least and the greatest output level of the
    entries (so it is that level when all the entries have the same one),
    also after the rounding. *)
Theorem defuzzification_between (lo hi : Z) (l : list (Q * Z)) :
  Forall (fun so => 0 <= fst so /\ (lo <= snd so <= hi)%Z) l ->
  ~ strength_sum l == 0 ->
  exists r, defuzzification (firings_of l) = Ret (Num r) /\
            inject_Z lo <= r <= inject_Z hi.
Proof.
  intros Hl Hnz. destruct (sums_between lo hi l Hl) as (H0 & H1 & H2).
  destruct (defuzzification_firings l) as [_ Hd].
  eexists. split; [exact (Hd Hnz)|].
  apply round2_between. assert (Hpos : 0 < strength_sum l) by lra. split.
  - apply Qle_shift_div_l; [exact Hpos|exact H1].
  - apply Qle_shift_div_r; [exact Hpos|exact H2].
Qed.

Lemma defuzzification_between_witness :
  let l := [(1 # 5, 1%Z); (1 # 10, 1%Z); (0, 2%Z)] in
  Forall (fun so => 0 <= fst so /\ (1 <= snd so <= 2)%Z) l /\
  ~ strength_sum l == 0 /\
  exists r, defuzzification (firings_of l) = Ret (Num r) /\
            inject_Z 1 <= r <= inject_Z 2.
Proof.
  intros l.
  assert (Hl : Forall (fun so => 0 <= fst so /\ (1 <= snd so <= 2)%Z) l).
  { repeat constructor; discriminate. }
  assert (Hnz : ~ strength_sum l == 0) by (intros H; discriminate H).
  split; [exact Hl|]. split; [exact Hnz|].
  exact (defuzzification_between 1 2 l Hl Hnz).
Defined.

(** ** Pipeline: keys *)

Lemma bind_Raise {A B : Type} (f : A -> outcome B) (m : outcome A) (e : exn) :
  m = Raise e -> m ≫= f = Raise e.
Proof. intros ->. reflexivity. Qed.

Lemma getitem_cases {V : Type} (d : gmap string V) (k : string) :
  (exists v, d !! k = Some v /\ getitem d k = Ret v) \/
  (d !! k = None /\ getitem d k = Raise KeyError).
Proof.
  unfold getitem. destruct (d !! k) as [v|]; [left; eauto|right; auto].
Qed.

(** X16: when the row lacks one of the keys ["tds"], ["ph"] and
    ["water_temp"], [get_z_result] raises [KeyError]. *)
Theorem get_z_result_missing_key (row : gmap string Q) :
  row !! "tds" = None \/ row !! "ph" = None \/ row !! "water_temp" = None ->
  get_z_result row = Raise KeyError.
Proof.
  intros H. unfold get_z_result.
  destruct (getitem_cases row "tds") as [(tds & Ht & E1) | [_ E1]];
    [|exact (bind_Raise _ _ _ E1)].
  run_step E1.
  destruct (tds_membership_unit tds) as (m1 & E2 & _). run_step E2.
  destruct (getitem_cases row "ph") as [(ph & Hp & E3) | [_ E3]];
    [|exact (bind_Raise _ _ _ E3)].
  run_step E3.
  destruct (ph_membership_unit ph) as (m2 & E4 & _). run_step E4.
  destruct (getitem_cases row "water_temp") as [(wt & Hw & E5) | [_ E5]];
    [|exact (bind_Raise _ _ _ E5)].
  exfalso. destruct H as [H | [H | H]]; congruence.
Qed.

Lemma get_z_result_missing_key_witness :
  let row : gmap string Q := {[ "tds" := 1200; "pH" := 7; "water_temp" := 27 ]} in
  (row !! "tds" = None \/ row !! "ph" = None \/ row !! "water_temp" = None) /\
  get_z_result row = Raise KeyError.
Proof.
  intros row.
  assert (H : row !! "tds" = None \/ row !! "ph" = None
              \/ row !! "water_temp" = None).
  { right. left. vm_compute. reflexivity. }
  split; [exact H|]. exact (get_z_result_missing_key row H).
Defined.

(** ** Pipeline: when the score is 0, 1 or 2 *)

(** What a degree says about the input, whatever the parameters. *)
Lemma fungsi_trapezium_support (x a b c d q : Q) :
  fungsi_trapezium x [a; b; c; d] = Ret (Num q) ->
  0 <= q <= 1 /\ (a < x -> x < d -> 0 < q) /\ (x <= a \/ d <= x -> q = 0).
Proof.
  intros E.
  destruct (fungsi_trapezium_cases x a b c d) as (q' & E' & H).
  rewrite E in E'. injection E' as <-.
  destruct H as [(H & ->) | [H | [(? & ? & ? & ? & ->) | H]]];
    (split; [lra|]); (split; [intros; lra|]); intros; first [reflexivity|lra].
Qed.

Lemma fungsi_segitiga_support (x a b c q : Q) :
  fungsi_segitiga x [a; b; c] = Ret (Num q) ->
  0 <= q <= 1 /\ (a < x -> x < c -> 0 < q) /\ (x <= a \/ c <= x -> q = 0).
Proof.
  intros E.
  destruct (fungsi_segitiga_cases x a b c) as (q' & E' & H).
  rewrite E in E'. injection E' as <-.
  destruct H as [(H & ->) | [H | H]];
    (split; [lra|]); (split; [intros; lra|]); intros; first [reflexivity|lra].
Qed.

Lemma firings_of_Forall (P : Q -> Z -> Prop) (rs : list firing) :
  Forall (fun f => exists s, firing_strength f = Num s /\ P s (output f)) rs ->
  exists l, rs = firings_of l /\ Forall (fun so => P (fst so) (snd so)) l.
Proof.
  induction 1 as [|[v o] rs (s & Hs & HP) _ (l & -> & Hl)].
  - exists []. split; [reflexivity|constructor].
  - simpl in Hs, HP. subst v. exists ((s, o) :: l).
    split; [reflexivity|]. constructor; assumption.
Qed.

Lemma strength_sum_zero (l : list (Q * Z)) :
  Forall (fun so => fst so == 0) l -> strength_sum l == 0.
Proof.
  induction 1 as [|[s o] l Hs _ IH]; simpl in *; lra.
Qed.

Lemma strength_sum_nonneg (l : list (Q * Z)) :
  Forall (fun so => 0 <= fst so) l -> 0 <= strength_sum l.
Proof.
  induction 1 as [|[s o] l Hs _ IH]; simpl in *; lra.
Qed.

Lemma strength_sum_pos (l : list (Q * Z)) (so : Q * Z) :
  Forall (fun so => 0 <= fst so) l -> so ∈ l -> 0 < fst so ->
  0 < strength_sum l.
Proof.
  intros Hl Hin Hpos. induction Hl as [|[s o] l Hs Hl IH]; [inversion Hin|].
  pose proof (strength_sum_nonneg l Hl) as Hn. simpl in *.
  apply elem_of_cons in Hin. destruct Hin as [-> | Hin].
  - simpl in Hpos. lra.
  - specialize (IH Hin). lra.
Qed.

(** The entries of a graded list all have output [k] or strength 0: the
    score is [k] as soon as one entry has a positive strength. *)
Lemma defuzzification_single_level (k : Z) (rs : list firing) (f : firing) :
  Forall (fun f => exists s, firing_strength f = Num s /\
                             0 <= s /\ (s == 0 \/ output f = k)) rs ->
  f ∈ rs -> (exists s, firing_strength f = Num s /\ 0 < s) ->
  exists r, defuzzification rs = Ret (Num r) /\ r == inject_Z k.
Proof.
  intros H Hin (s & Hs & Hpos).
  destruct (firings_of_Forall (fun s o => 0 <= s /\ (s == 0 \/ o = k)) rs H)
    as (l & -> & Hl).
  set (l' := map (fun so : Q * Z => (fst so, k)) l).
  assert (Hsum : strength_sum l == strength_sum l'
                 /\ weighted_sum l == weighted_sum l').
  { subst l'. clear Hin H. induction Hl as [|[s0 o0] l (H0 & Hk) _ [IH1 IH2]];
      simpl in *; [split; reflexivity|].
    split; [lra|]. rewrite <- IH2. destruct Hk as [Hz | ->]; [|reflexivity].
    rewrite Hz. ring. }
  destruct Hsum as [Hs1 Hs2].
  rewrite (defuzzification_same_sums l l' Hs1 Hs2).
  assert (Hl' : Forall (fun so => 0 <= fst so /\ (k <= snd so <= k)%Z) l').
  { subst l'. apply Forall_fmap. eapply Forall_impl; [exact Hl|].
    intros so [H0 _]. simpl. split; [exact H0|lia]. }
  assert (Hnz : ~ strength_sum l' == 0).
  { rewrite <- Hs1. unfold firings_of in Hin.
    apply list_elem_of_fmap in Hin. destruct Hin as (so & -> & Hso).
    simpl in Hs. injection Hs as Hs.
    assert (0 < strength_sum l); [|lra].
    apply (strength_sum_pos l so); [|exact Hso|rewrite Hs; exact Hpos].
    eapply Forall_impl; [exact Hl|]. intros ? [? _]. assumption. }
  destruct (sums_between k k l' Hl') as (H0 & H1 & H2).
  destruct (defuzzification_firings l') as [_ Hd].
  eexists. split; [exact (Hd Hnz)|].
  assert (Hpos' : 0 < strength_sum l') by lra.
  assert (Hb : inject_Z k <= weighted_sum l' / strength_sum l' <= inject_Z k).
  { split; [apply Qle_shift_div_l|apply Qle_shift_div_r]; assumption. }
  pose proof (round2_between k k _ Hb). lra.
Qed.

Lemma defuzzification_all_zero (rs : list firing) :
  Forall (fun f => exists s, firing_strength f = Num s /\ s == 0) rs ->
  defuzzification rs = Ret (Num 0).
Proof.
  intros H.
  destruct (firings_of_Forall (fun s _ => s == 0) rs H) as (l & -> & Hl).
  apply (proj1 (defuzzification_firings l)). apply strength_sum_zero.
  exact Hl.
Qed.

Lemma rules_grid_complete :
  Forall (fun t =>
    Forall (fun p =>
      Forall (fun m => (t, p, m, spec_level t p m) ∈ rules) temp_terms)
      ph_terms)
    tds_terms.
Proof. apply (bool_decide_unpack _). vm_compute. exact I. Qed.

Lemma rules_level_two :
  Forall (fun r : rule =>
            level r = 1%Z \/ r = ("Optimal", "Optimal", "Optimal", 2%Z)) rules.
Proof. apply (bool_decide_unpack _). vm_compute. exact I. Qed.

Lemma rules_level_one :
  Forall (fun r : rule =>
            level r = 2%Z \/ r.1.1.1 <> "Optimal" \/ r.1.1.2 <> "Optimal"
            \/ r.1.2 <> "Optimal") rules.
Proof. apply (bool_decide_unpack _). vm_compute. exact I. Qed.

Lemma weighted_min_pos (d1 d2 d3 : Q) :
  0 < d1 -> 0 < d2 -> 0 < d3 -> 0 < weighted_min d1 d2 d3.
Proof.
  intros H1 H2 H3. unfold weighted_min.
  apply Q.min_glb_lt; [apply Q.min_glb_lt|]; lra.
Qed.

Lemma weighted_min_zero (d1 d2 d3 : Q) :
  0 <= d1 -> 0 <= d2 -> 0 <= d3 -> d1 == 0 \/ d2 == 0 \/ d3 == 0 ->
  weighted_min d1 d2 d3 == 0.
Proof.
  intros H1 H2 H3 Hz.
  pose proof (weighted_min_nonneg d1 d2 d3 H1 H2 H3) as Hge.
  assert (Hle : weighted_min d1 d2 d3 <= 0); [|lra].
  unfold weighted_min.
  pose proof (Q.le_min_l (Qmin (d1 * (3 # 5)) (d2 * (1 # 5))) (d3 * (1 # 5))).
  pose proof (Q.le_min_r (Qmin (d1 * (3 # 5)) (d2 * (1 # 5))) (d3 * (1 # 5))).
  pose proof (Q.le_min_l (d1 * (3 # 5)) (d2 * (1 # 5))).
  pose proof (Q.le_min_r (d1 * (3 # 5)) (d2 * (1 # 5))).
  destruct Hz as [Hz | [Hz | Hz]]; lra.
Qed.

(** A property of the sentinel and of the entry of every rule holds of all
    the entries [fuzzy_rules] returns. *)
Lemma spec_fire_entries (x1 x2 x3 : gmap string pyval) (P : firing -> Prop) :
  unit_degrees x1 -> unit_degrees x2 -> unit_degrees x3 ->
  P sentinel ->
  (forall t p m o d1 d2 d3,
     (t, p, m, o) ∈ rules ->
     x1 !! t = Some (Num d1) -> x2 !! p = Some (Num d2) ->
     x3 !! m = Some (Num d3) ->
     0 <= d1 <= 1 -> 0 <= d2 <= 1 -> 0 <= d3 <= 1 ->
     P (mk_firing (Num (weighted_min d1 d2 d3)) o)) ->
  Forall P (or_sentinel (omap (spec_fire x1 x2 x3) rules)).
Proof.
  intros U1 U2 U3 Hs Hr.
  assert (H : Forall P (omap (spec_fire x1 x2 x3) rules)).
  { apply Forall_forall. intros f Hf.
    apply list_elem_of_omap in Hf. destruct Hf as ([[[t p] m] o] & Hin & Hf).
    unfold spec_fire in Hf.
    destruct (x1 !! t) as [v1|] eqn:E1; [|discriminate].
    destruct (U1 _ _ E1) as (d1 & -> & Hd1).
    destruct (x2 !! p) as [v2|] eqn:E2; [|discriminate].
    destruct (U2 _ _ E2) as (d2 & -> & Hd2).
    destruct (x3 !! m) as [v3|] eqn:E3; [|discriminate].
    destruct (U3 _ _ E3) as (d3 & -> & Hd3).
    injection Hf as <-. eapply Hr; eassumption. }
  unfold or_sentinel. destruct (omap (spec_fire x1 x2 x3) rules); [|exact H].
  apply Forall_cons. split; [exact Hs|apply Forall_nil; exact I].
Qed.

Lemma spec_fire_elem (x1 x2 x3 : gmap string pyval) t p m o d1 d2 d3 :
  (t, p, m, o) ∈ rules ->
  x1 !! t = Some (Num d1) -> x2 !! p = Some (Num d2) ->
  x3 !! m = Some (Num d3) ->
  mk_firing (Num (weighted_min d1 d2 d3)) o
  ∈ or_sentinel (omap (spec_fire x1 x2 x3) rules).
Proof.
  intros Hin E1 E2 E3.
  assert (Hel : mk_firing (Num (weighted_min d1 d2 d3)) o
                ∈ omap (spec_fire x1 x2 x3) rules).
  { apply list_elem_of_omap. exists (t, p, m, o). split; [exact Hin|].
    unfold spec_fire. rewrite E1, E2, E3. reflexivity. }
  unfold or_sentinel.
  destruct (omap (spec_fire x1 x2 x3) rules); [inversion Hel|exact Hel].
Qed.

(** The three scores of the rule engine followed by the defuzzifier, on
    mappings with unit degrees. *)
Lemma score_zero (x1 x2 x3 : gmap string pyval) :
  unit_degrees x1 -> unit_degrees x2 -> unit_degrees x3 ->
  map_Forall (fun _ v => v = Num 0) x1 \/
  map_Forall (fun _ v => v = Num 0) x2 \/
  map_Forall (fun _ v => v = Num 0) x3 ->
  defuzzification (or_sentinel (omap (spec_fire x1 x2 x3) rules))
  = Ret (Num 0).
Proof.
  intros U1 U2 U3 Hz. apply defuzzification_all_zero.
  apply spec_fire_entries; try assumption.
  - exists 0. split; reflexivity.
  - intros t p m o d1 d2 d3 _ E1 E2 E3 Hd1 Hd2 Hd3.
    eexists. split; [reflexivity|].
    apply weighted_min_zero; try lra.
    destruct Hz as [Hz | [Hz | Hz]].
    + left. specialize (Hz _ _ E1). injection Hz as ->. reflexivity.
    + right. left. specialize (Hz _ _ E2). injection Hz as ->. reflexivity.
    + right. right. specialize (Hz _ _ E3). injection Hz as ->. reflexivity.
Qed.

Lemma score_fires (x1 x2 x3 : gmap string pyval) t p m d1 d2 d3 :
  unit_degrees x1 -> unit_degrees x2 -> unit_degrees x3 ->
  t ∈ tds_terms -> p ∈ ph_terms -> m ∈ temp_terms ->
  x1 !! t = Some (Num d1) -> x2 !! p = Some (Num d2) ->
  x3 !! m = Some (Num d3) -> 0 < d1 -> 0 < d2 -> 0 < d3 ->
  exists f, f ∈ or_sentinel (omap (spec_fire x1 x2 x3) rules) /\
            exists s, firing_strength f = Num s /\ 0 < s.
Proof.
  intros U1 U2 U3 Ht Hp Hm E1 E2 E3 H1 H2 H3.
  pose proof rules_grid_complete as Hg.
  rewrite Forall_forall in Hg. specialize (Hg _ Ht).
  rewrite Forall_forall in Hg. specialize (Hg _ Hp).
  rewrite Forall_forall in Hg. specialize (Hg _ Hm).
  eexists. split; [exact (spec_fire_elem x1 x2 x3 _ _ _ _ _ _ _ Hg E1 E2 E3)|].
  eexists. split; [reflexivity|]. apply weighted_min_pos; assumption.
Qed.

Lemma dict3_lookup (k1 k2 k3 k : string) (v1 v2 v3 v : pyval) :
  ({[ k1 := v1; k2 := v2; k3 := v3 ]} : gmap string pyval) !! k = Some v ->
  (k = k1 /\ v = v1) \/ (k = k2 /\ v = v2) \/ (k = k3 /\ v = v3).
Proof.
  rewrite !lookup_insert_Some, lookup_singleton_Some.
  intros [[<- <-] | [_ [[<- <-] | [_ [<- <-]]]]]; auto.
Qed.

Lemma dict4_lookup (k1 k2 k3 k4 k : string) (v1 v2 v3 v4 v : pyval) :
  ({[ k1 := v1; k2 := v2; k3 := v3; k4 := v4 ]} : gmap string pyval) !! k
  = Some v ->
  (k = k1 /\ v = v1) \/ (k = k2 /\ v = v2) \/ (k = k3 /\ v = v3)
  \/ (k = k4 /\ v = v4).
Proof.
  rewrite !lookup_insert_Some, lookup_singleton_Some.
  intros [[<- <-] | [_ [[<- <-] | [_ [[<- <-] | [_ [<- <-]]]]]]]; auto.
Qed.

(** Solves [t ∈ terms] for a literal term and a lookup in a dict literal. *)
Ltac term_in := apply (bool_decide_unpack _); vm_compute; exact I.
Ltac dict_get := vm_compute; reflexivity.

Lemma tds_fuzzify (x : Q) :
  exists m, tds_membership x = Ret m /\ unit_degrees m /\
    (0 < x -> x < 3000 ->
     exists t d, t ∈ tds_terms /\ m !! t = Some (Num d) /\ 0 < d) /\
    (x <= 0 \/ 3000 <= x -> map_Forall (fun _ v => v = Num 0) m) /\
    (exists d, m !! "Optimal" = Some (Num d) /\
               (900 < x -> x < 2000 -> 0 < d) /\
               (x <= 900 \/ 2000 <= x -> d = 0)) /\
    (1100 <= x -> x <= 1800 ->
     forall k v, k <> "Optimal" -> m !! k = Some v -> v = Num 0).
Proof.
  destruct (tds_membership_shape x) as (q1 & q2 & q3 & q4 & E1 & E2 & E3 & E4 & E).
  destruct (fungsi_trapezium_support _ _ _ _ _ _ E1) as (B1 & P1 & Z1).
  destruct (fungsi_trapezium_support _ _ _ _ _ _ E2) as (B2 & P2 & Z2).
  destruct (fungsi_trapezium_support _ _ _ _ _ _ E3) as (B3 & P3 & Z3).
  destruct (fungsi_trapezium_support _ _ _ _ _ _ E4) as (B4 & P4 & Z4).
  eexists. split; [exact E|]. split; [unit_dict|]. split; [|split; [|split]].
  - intros Hlo Hhi.
    destruct (Qlt_le_dec x 600) as [H|H].
    { exists "Sangat Rendah", q1. split; [term_in|]. split; [dict_get|].
      apply P1; lra. }
    destruct (Qlt_le_dec x 1100) as [H'|H'].
    { exists "Rendah", q2. split; [term_in|]. split; [dict_get|].
      apply P2; lra. }
    destruct (Qlt_le_dec x 2000) as [H''|H''].
    { exists "Optimal", q3. split; [term_in|]. split; [dict_get|].
      apply P3; lra. }
    exists "Tinggi", q4. split; [term_in|]. split; [dict_get|]. apply P4; lra.
  - intros H. rewrite Z1, Z2, Z3, Z4 by lra.
    repeat (apply map_Forall_insert_2; [reflexivity|]).
    apply map_Forall_empty.
  - exists q3. split; [dict_get|]. split; [exact P3|exact Z3].
  - intros Hlo Hhi k v Hk Hv. apply dict4_lookup in Hv.
    destruct Hv as [[-> ->] | [[-> ->] | [[-> ->] | [-> ->]]]].
    + rewrite Z1 by lra. reflexivity.
    + rewrite Z2 by lra. reflexivity.
    + contradiction.
    + rewrite Z4 by lra. reflexivity.
Qed.

Lemma ph_fuzzify (x : Q) :
  exists m, ph_membership x = Ret m /\ unit_degrees m /\
    (0 < x -> x < 14 ->
     exists t d, t ∈ ph_terms /\ m !! t = Some (Num d) /\ 0 < d) /\
    (x <= 0 \/ 14 <= x -> map_Forall (fun _ v => v = Num 0) m) /\
    (exists d, m !! "Optimal" = Some (Num d) /\
               (6 < x -> x < 8 -> 0 < d) /\
               (x <= 6 \/ 8 <= x -> d = 0)) /\
    (x == 7 ->
     forall k v, k <> "Optimal" -> m !! k = Some v -> v = Num 0).
Proof.
  destruct (ph_membership_shape x) as (q1 & q2 & q3 & E1 & E2 & E3 & E).
  destruct (fungsi_trapezium_support _ _ _ _ _ _ E1) as (B1 & P1 & Z1).
  destruct (fungsi_segitiga_support _ _ _ _ _ E2) as (B2 & P2 & Z2).
  destruct (fungsi_trapezium_support _ _ _ _ _ _ E3) as (B3 & P3 & Z3).
  eexists. split; [exact E|]. split; [unit_dict|]. split; [|split; [|split]].
  - intros Hlo Hhi.
    destruct (Qlt_le_dec x 7) as [H|H].
    { exists "Asam", q1. split; [term_in|]. split; [dict_get|].
      apply P1; lra. }
    destruct (Qlt_le_dec 7 x) as [H'|H'].
    { exists "Basa", q3. split; [term_in|]. split; [dict_get|].
      apply P3; lra. }
    exists "Optimal", q2. split; [term_in|]. split; [dict_get|]. apply P2; lra.
  - intros H. rewrite Z1, Z2, Z3 by lra.
    repeat (apply map_Forall_insert_2; [reflexivity|]).
    apply map_Forall_empty.
  - exists q2. split; [dict_get|]. split; [exact P2|exact Z2].
  - intros Hx k v Hk Hv. apply dict3_lookup in Hv.
    destruct Hv as [[-> ->] | [[-> ->] | [-> ->]]].
    + rewrite Z1 by lra. reflexivity.
    + contradiction.
    + rewrite Z3 by lra. reflexivity.
Qed.

Lemma temp_fuzzify (x : Q) :
  exists m, temp_membership x = Ret m /\ unit_degrees m /\
    (0 < x -> x < 45 ->
     exists t d, t ∈ temp_terms /\ m !! t = Some (Num d) /\ 0 < d) /\
    (x <= 0 \/ 45 <= x -> map_Forall (fun _ v => v = Num 0) m) /\
    (exists d, m !! "Optimal" = Some (Num d) /\
               (24 < x -> x < 30 -> 0 < d) /\
               (x <= 24 \/ 30 <= x -> d = 0)) /\
    (25 <= x -> x <= 28 ->
     forall k v, k <> "Optimal" -> m !! k = Some v -> v = Num 0).
Proof.
  destruct (temp_membership_shape x) as (q1 & q2 & q3 & E1 & E2 & E3 & E).
  destruct (fungsi_trapezium_support _ _ _ _ _ _ E1) as (B1 & P1 & Z1).
  destruct (fungsi_segitiga_support _ _ _ _ _ E2) as (B2 & P2 & Z2).
  destruct (fungsi_trapezium_support _ _ _ _ _ _ E3) as (B3 & P3 & Z3).
  eexists. split; [exact E|]. split; [unit_dict|]. split; [|split; [|split]].
  - intros Hlo Hhi.
    destruct (Qlt_le_dec x 25) as [H|H].
    { exists "Dingin", q1. split; [term_in|]. split; [dict_get|].
      apply P1; lra. }
    destruct (Qlt_le_dec x 30) as [H'|H'].
    { exists "Optimal", q2. split; [term_in|]. split; [dict_get|].
      apply P2; lra. }
    exists "Panas", q3. split; [term_in|]. split; [dict_get|]. apply P3; lra.
  - intros H. rewrite Z1, Z2, Z3 by lra.
    repeat (apply map_Forall_insert_2; [reflexivity|]).
    apply map_Forall_empty.
  - exists q2. split; [dict_get|]. split; [exact P2|exact Z2].
  - intros Hlo Hhi k v Hk Hv. apply dict3_lookup in Hv.
    destruct Hv as [[-> ->] | [[-> ->] | [-> ->]]].
    + rewrite Z1 by lra. reflexivity.
    + contradiction.
    + rewrite Z3 by lra. reflexivity.
Qed.

Lemma score_in_range (x1 x2 x3 : gmap string pyval) :
  unit_degrees x1 -> unit_degrees x2 -> unit_degrees x3 ->
  (exists f, f ∈ or_sentinel (omap (spec_fire x1 x2 x3) rules) /\
             exists s, firing_strength f = Num s /\ 0 < s) ->
  exists r, defuzzification (or_sentinel (omap (spec_fire x1 x2 x3) rules))
            = Ret (Num r) /\ 1 <= r <= 2.
Proof.
  intros U1 U2 U3 (f & Hin & s & Hs & Hpos).
  destruct (graded_firings_of _ (spec_fire_graded x1 x2 x3 U1 U2 U3))
    as (l & El & Hl).
  rewrite El in *.
  destruct (graded_sums l Hl) as (H0 & H1 & H2).
  unfold firings_of in Hin. apply list_elem_of_fmap in Hin.
  destruct Hin as (so & -> & Hso). simpl in Hs. injection Hs as Hs.
  assert (Hsum : 0 < strength_sum l).
  { apply (strength_sum_pos l so); [|exact Hso|rewrite Hs; exact Hpos].
    eapply Forall_impl; [exact Hl|]. intros ? [? _]. assumption. }
  destruct (defuzzification_firings l) as [_ Hd].
  eexists. split; [apply Hd; lra|].
  apply round2_between_1_2. split.
  - apply Qle_shift_div_l; [exact Hsum|]. lra.
  - apply Qle_shift_div_r; [exact Hsum|]. lra.
Qed.

Lemma score_one (x1 x2 x3 : gmap string pyval) :
  unit_degrees x1 -> unit_degrees x2 -> unit_degrees x3 ->
  (exists f, f ∈ or_sentinel (omap (spec_fire x1 x2 x3) rules) /\
             exists s, firing_strength f = Num s /\ 0 < s) ->
  x1 !! "Optimal" = Some (Num 0) \/ x2 !! "Optimal" = Some (Num 0)
  \/ x3 !! "Optimal" = Some (Num 0) ->
  exists r, defuzzification (or_sentinel (omap (spec_fire x1 x2 x3) rules))
            = Ret (Num r) /\ r == 1.
Proof.
  intros U1 U2 U3 (f & Hin & Hf) Hz.
  apply (defuzzification_single_level 1 _ f); [|exact Hin|exact Hf].
  apply spec_fire_entries; try assumption.
  - exists 0. split; [reflexivity|]. split; [lra|left; reflexivity].
  - intros t p m o d1 d2 d3 Hr E1 E2 E3 Hd1 Hd2 Hd3.
    eexists. split; [reflexivity|].
    split; [apply weighted_min_nonneg; lra|].
    pose proof (proj1 (Forall_forall _ _) rules_level_two _ Hr) as [Hl | Hl].
    + right. exact Hl.
    + left. injection Hl as -> -> -> ->.
      apply weighted_min_zero; try lra.
      destruct Hz as [Hz | [Hz | Hz]].
      * left. rewrite E1 in Hz. injection Hz as ->. reflexivity.
      * right. left. rewrite E2 in Hz. injection Hz as ->. reflexivity.
      * right. right. rewrite E3 in Hz. injection Hz as ->. reflexivity.
Qed.

Lemma score_two (x1 x2 x3 : gmap string pyval) (d1 d2 d3 : Q) :
  unit_degrees x1 -> unit_degrees x2 -> unit_degrees x3 ->
  x1 !! "Optimal" = Some (Num d1) -> x2 !! "Optimal" = Some (Num d2) ->
  x3 !! "Optimal" = Some (Num d3) -> 0 < d1 -> 0 < d2 -> 0 < d3 ->
  (forall k v, k <> "Optimal" -> x1 !! k = Some v -> v = Num 0) ->
  (forall k v, k <> "Optimal" -> x2 !! k = Some v -> v = Num 0) ->
  (forall k v, k <> "Optimal" -> x3 !! k = Some v -> v = Num 0) ->
  exists r, defuzzification (or_sentinel (omap (spec_fire x1 x2 x3) rules))
            = Ret (Num r) /\ r == 2.
Proof.
  intros U1 U2 U3 O1 O2 O3 P1 P2 P3 N1 N2 N3.
  assert (Hin : ("Optimal", "Optimal", "Optimal", 2%Z) ∈ rules) by term_in.
  apply (defuzzification_single_level 2 _
           (mk_firing (Num (weighted_min d1 d2 d3)) 2)).
  - apply spec_fire_entries; try assumption.
    + exists 0. split; [reflexivity|]. split; [lra|left; reflexivity].
    + intros t p m o e1 e2 e3 Hr E1 E2 E3 Hd1 Hd2 Hd3.
      eexists. split; [reflexivity|].
      split; [apply weighted_min_nonneg; lra|].
      pose proof (proj1 (Forall_forall _ _) rules_level_one _ Hr)
        as [Hl | [Hl | [Hl | Hl]]]; cbn in Hl.
      * right. exact Hl.
      * left. apply weighted_min_zero; try lra. left.
        pose proof (N1 _ _ Hl E1) as Hv. injection Hv as ->. reflexivity.
      * left. apply weighted_min_zero; try lra. right. left.
        pose proof (N2 _ _ Hl E2) as Hv. injection Hv as ->. reflexivity.
      * left. apply weighted_min_zero; try lra. right. right.
        pose proof (N3 _ _ Hl E3) as Hv. injection Hv as ->. reflexivity.
  - exact (spec_fire_elem x1 x2 x3 _ _ _ _ _ _ _ Hin O1 O2 O3).
  - eexists. split; [reflexivity|]. apply weighted_min_pos; assumption.
Qed.

(** The score of an observation is the defuzzified rule output of its three
    fuzzified inputs. *)
Lemma get_z_result_observation (ph tds water_temp : Q)
    (m1 m2 m3 : gmap string pyval) :
  tds_membership tds = Ret m1 -> unit_degrees m1 ->
  ph_membership ph = Ret m2 -> unit_degrees m2 ->
  temp_membership water_temp = Ret m3 -> unit_degrees m3 ->
  get_z_result (observation ph tds water_temp)
  = defuzzification (or_sentinel (omap (spec_fire m1 m2 m3) rules)).
Proof.
  intros E1 U1 E2 U2 E3 U3.
  exact (get_z_result_steps _ _ _ _ _ _ _ _
           (observation_tds ph tds water_temp) E1
           (observation_ph ph tds water_temp) E2
           (observation_water_temp ph tds water_temp) E3
           (fuzzy_rules_spec m1 m2 m3
              (unit_degrees_degree_mapping _ U1)
              (unit_degrees_degree_mapping _ U2)
              (unit_degrees_degree_mapping _ U3))).
Qed.

(** X18: the score of an observation is 0 exactly when one of the inputs
    is outside the open range its fuzzy sets cover ([0 < ph < 14],
    [0 < tds < 3000], [0 < water_temp < 45]); inside the three ranges some
    rule fires and the score lies in [[1, 2]]. *)
Theorem get_z_result_zero_iff (ph tds water_temp : Q) :
  exists r, get_z_result (observation ph tds water_temp) = Ret (Num r) /\
    ((0 < ph /\ ph < 14) /\ (0 < tds /\ tds < 3000)
     /\ (0 < water_temp /\ water_temp < 45) -> 1 <= r <= 2) /\
    (~ ((0 < ph /\ ph < 14) /\ (0 < tds /\ tds < 3000)
        /\ (0 < water_temp /\ water_temp < 45)) -> r = 0).
Proof.
  destruct (tds_fuzzify tds) as (m1 & E1 & U1 & C1 & Z1 & _).
  destruct (ph_fuzzify ph) as (m2 & E2 & U2 & C2 & Z2 & _).
  destruct (temp_fuzzify water_temp) as (m3 & E3 & U3 & C3 & Z3 & _).
  rewrite (get_z_result_observation ph tds water_temp m1 m2 m3 E1 U1 E2 U2 E3 U3).
  destruct (Qlt_le_dec 0 ph) as [Hp1|Hp1]; [destruct (Qlt_le_dec ph 14) as [Hp2|Hp2]|];
  [destruct (Qlt_le_dec 0 tds) as [Ht1|Ht1];
     [destruct (Qlt_le_dec tds 3000) as [Ht2|Ht2]|];
   [destruct (Qlt_le_dec 0 water_temp) as [Hw1|Hw1];
      [destruct (Qlt_le_dec water_temp 45) as [Hw2|Hw2]|];
    [|..]|..]|..].
  1: { destruct (C1 Ht1 Ht2) as (t & d1 & Ht & L1 & P1).
       destruct (C2 Hp1 Hp2) as (p & d2 & Hp & L2 & P2).
       destruct (C3 Hw1 Hw2) as (m & d3 & Hm & L3 & P3).
       destruct (score_in_range m1 m2 m3 U1 U2 U3) as (r & Hr & Hrange).
       { eapply score_fires; eassumption. }
       exists r. split; [exact Hr|]. split; [intros _; exact Hrange|].
       intros Hn. exfalso. apply Hn. auto. }
  all: exists 0; split;
    [ apply score_zero; try assumption;
      first [ left; apply Z1; lra
            | right; left; apply Z2; lra
            | right; right; apply Z3; lra ]
    | split; [intros H; exfalso; lra | reflexivity] ].
Qed.

(** X19: inside the three covered ranges, the score is exactly 1 as soon as
    one input lies outside the support of its Optimal set ([ph <= 6] or
    [ph >= 8], [tds <= 900] or [tds >= 2000], [water_temp <= 24] or
    [water_temp >= 30]): the level-2 rule then has strength 0. *)
Theorem get_z_result_one (ph tds water_temp : Q) :
  0 < ph -> ph < 14 -> 0 < tds -> tds < 3000 ->
  0 < water_temp -> water_temp < 45 ->
  (ph <= 6 \/ 8 <= ph) \/ (tds <= 900 \/ 2000 <= tds)
  \/ (water_temp <= 24 \/ 30 <= water_temp) ->
  exists r, get_z_result (observation ph tds water_temp) = Ret (Num r) /\
            r == 1.
Proof.
  intros Hp1 Hp2 Ht1 Ht2 Hw1 Hw2 Hout.
  destruct (tds_fuzzify tds) as (m1 & E1 & U1 & C1 & _ & (o1 & O1 & _ & Z1) & _).
  destruct (ph_fuzzify ph) as (m2 & E2 & U2 & C2 & _ & (o2 & O2 & _ & Z2) & _).
  destruct (temp_fuzzify water_temp)
    as (m3 & E3 & U3 & C3 & _ & (o3 & O3 & _ & Z3) & _).
  rewrite (get_z_result_observation ph tds water_temp m1 m2 m3 E1 U1 E2 U2 E3 U3).
  destruct (C1 Ht1 Ht2) as (t & d1 & Ht & L1 & P1).
  destruct (C2 Hp1 Hp2) as (p & d2 & Hp & L2 & P2).
  destruct (C3 Hw1 Hw2) as (m & d3 & Hm & L3 & P3).
  apply score_one; try assumption.
  - eapply score_fires; eassumption.
  - destruct Hout as [H | [H | H]].
    + right. left. rewrite O2, (Z2 H). reflexivity.
    + left. rewrite O1, (Z1 H). reflexivity.
    + right. right. rewrite O3, (Z3 H). reflexivity.
Qed.

Lemma get_z_result_one_witness :
  (0 < 7 /\ 7 < 14 /\ 0 < 1200 /\ 1200 < 3000 /\ 0 < 35 /\ 35 < 45 /\
   ((7 <= 6 \/ 8 <= 7) \/ (1200 <= 900 \/ 2000 <= 1200)
    \/ (35 <= 24 \/ 30 <= 35))) /\
  exists r, get_z_result (observation 7 1200 35) = Ret (Num r) /\ r == 1.
Proof.
  assert (H : (7 <= 6 \/ 8 <= 7) \/ (1200 <= 900 \/ 2000 <= 1200)
              \/ (35 <= 24 \/ 30 <= 35)).
  { right. right. right. discriminate. }
  split; [repeat (split; [reflexivity|]); exact H|].
  apply (get_z_result_one 7 1200 35); try reflexivity. exact H.
Defined.

(** X20: the score is exactly 2 when pH is 7, TDS lies in [[1100, 1800]]
    and the temperature in [[25, 28]]: there every set but the three Optimal
    ones has degree 0, so the level-2 rule is the only one that fires. *)
Theorem get_z_result_two (ph tds water_temp : Q) :
  ph == 7 -> 1100 <= tds -> tds <= 1800 ->
  25 <= water_temp -> water_temp <= 28 ->
  exists r, get_z_result (observation ph tds water_temp) = Ret (Num r) /\
            r == 2.
Proof.
  intros Hp Ht1 Ht2 Hw1 Hw2.
  destruct (tds_fuzzify tds) as (m1 & E1 & U1 & _ & _ & (o1 & O1 & P1 & _) & N1).
  destruct (ph_fuzzify ph) as (m2 & E2 & U2 & _ & _ & (o2 & O2 & P2 & _) & N2).
  destruct (temp_fuzzify water_temp)
    as (m3 & E3 & U3 & _ & _ & (o3 & O3 & P3 & _) & N3).
  rewrite (get_z_result_observation ph tds water_temp m1 m2 m3 E1 U1 E2 U2 E3 U3).
  apply (score_two m1 m2 m3 o1 o2 o3); try assumption.
  - apply P1; lra.
  - apply P2; lra.
  - apply P3; lra.
  - apply N1; assumption.
  - apply N2; assumption.
  - apply N3; assumption.
Qed.

Lemma get_z_result_two_witness :
  (7 == 7 /\ 1100 <= 1500 /\ 1500 <= 1800 /\ 25 <= 26 /\ 26 <= 28) /\
  exists r, get_z_result (observation 7 1500 26) = Ret (Num r) /\ r == 2.
Proof.
  split; [repeat split; discriminate|].
  apply (get_z_result_two 7 1500 26); try reflexivity; discriminate.
Defined.

(** ** Categorical evaluator *)

Lemma count_row_cases (a p : string) (row : gmap string cell)
    (cm : confusion_matrix) :
  (valid_row a p row /\
   exists cm', count_row a p row cm = Ret cm' /\
     total cm' = (total cm + 1)%Z /\
     (TP cm <= TP cm')%Z /\ (TN cm <= TN cm')%Z /\
     (FP cm <= FP cm')%Z /\ (FN cm <= FN cm')%Z) \/
  (~ valid_row a p row /\ exists e, count_row a p row cm = Raise e).
Proof.
  unfold count_row, valid_row.
  destruct (getitem_cases row a) as [(va & Ha & ->) | [Ha ->]].
  - destruct (getitem_cases row p) as [(vp & Hp & ->) | [Hp ->]].
    + left. split; [split; eauto|]. cbn [mbind outcome_bind mret outcome_ret].
      destruct cm as [tp tn fp fn]. eexists. split; [reflexivity|].
      destruct (bool_decide (lower (strip (py_str vp)) = positive_class)),
        (bool_decide (lower (strip (py_str va)) = positive_class));
        cbn; unfold total; cbn; lia.
    + right. split; [|eexists; reflexivity].
      intros [_ [v Hv]]. congruence.
  - right. split; [|eexists; reflexivity].
    intros [[v Hv] _]. congruence.
Qed.

Lemma count_rows_total (a p : string) (df : list (gmap string cell))
    (cm : confusion_matrix) :
  total (count_rows a p df cm)
  = (total cm + Z.of_nat (length (filter (valid_row a p) df)))%Z /\
  (TP cm <= TP (count_rows a p df cm))%Z /\
  (TN cm <= TN (count_rows a p df cm))%Z /\
  (FP cm <= FP (count_rows a p df cm))%Z /\
  (FN cm <= FN (count_rows a p df cm))%Z.
Proof.
  revert cm. induction df as [|row df IH]; intros cm.
  - cbn. repeat split; lia.
  - cbn [count_rows]. rewrite filter_cons.
    destruct (count_row_cases a p row cm)
      as [(Hv & cm' & -> & Ht & H1 & H2 & H3 & H4) | (Hv & e & ->)].
    + rewrite decide_True by exact Hv. cbn [length].
      destruct (IH cm') as (I0 & I1 & I2 & I3 & I4).
      repeat split; lia.
    + rewrite decide_False by exact Hv. apply IH.
Qed.

Lemma perform_categorical_evaluation_unfold (df : list (gmap string cell))
    (a p : string) :
  let cm := count_rows a p df (mk_confusion 0 0 0 0) in
  perform_categorical_evaluation df a p
  = if (total cm =? 0)%Z
    then EvalError "No valid data available for evaluation."
    else EvalReport cm
           (mk_metrics
              (inject_Z (TP cm + TN cm) / inject_Z (total cm))
              (if (0 <? TP cm + FP cm)%Z
               then inject_Z (TP cm) / inject_Z (TP cm + FP cm) else 0)
              (if (0 <? TP cm + FN cm)%Z
               then inject_Z (TP cm) / inject_Z (TP cm + FN cm) else 0)).
Proof.
  cbv zeta. unfold perform_categorical_evaluation.
  destruct (count_rows a p df (mk_confusion 0 0 0 0)) as [tp tn fp fn].
  reflexivity.
Qed.

Lemma count_ratio_unit (n d : Z) :
  (0 <= n)%Z -> (n <= d)%Z -> (0 < d)%Z ->
  0 <= inject_Z n / inject_Z d <= 1.
Proof.
  intros Hn Hd Hpos. apply ratio_unit.
  - rewrite Zle_Qle in Hn. exact Hn.
  - rewrite Zle_Qle in Hd. exact Hd.
  - rewrite Zlt_Qlt in Hpos. exact Hpos.
Qed.

(** X21: the evaluator counts exactly the rows that hold both columns: it
    returns the error result when there is no such row, and otherwise a
    report whose four counters are not negative and sum to the number of
    such rows. *)
Theorem perform_categorical_evaluation_counts
    (df : list (gmap string cell)) (a p : string) :
  match perform_categorical_evaluation df a p with
  | EvalError msg =>
      filter (valid_row a p) df = [] /\
      msg = "No valid data available for evaluation."
  | EvalReport cm _ =>
      filter (valid_row a p) df <> [] /\
      total cm = Z.of_nat (length (filter (valid_row a p) df)) /\
      (0 <= TP cm)%Z /\ (0 <= TN cm)%Z /\ (0 <= FP cm)%Z /\ (0 <= FN cm)%Z
  end.
Proof.
  rewrite perform_categorical_evaluation_unfold. cbv zeta.
  destruct (count_rows_total a p df (mk_confusion 0 0 0 0))
    as (Ht & H1 & H2 & H3 & H4).
  change (total (mk_confusion 0 0 0 0)) with 0%Z in Ht.
  cbn [TP TN FP FN] in H1, H2, H3, H4.
  destruct (total (count_rows a p df (mk_confusion 0 0 0 0)) =? 0)%Z eqn:E.
  - apply Z.eqb_eq in E. split; [|reflexivity].
    destruct (filter (valid_row a p) df); [reflexivity|].
    cbn [length] in Ht. lia.
  - apply Z.eqb_neq in E. split; [|split; [lia|auto]].
    intros Hnil. rewrite Hnil in Ht. cbn in Ht. lia.
Qed.

(** X22: in a report the accuracy is (TP + TN) / (TP + TN + FP + FN), and
    accuracy, precision and recall all lie in [[0, 1]]; precision is 0 when
    nothing was predicted positive and recall is 0 when nothing is actually
    positive. *)
Theorem perform_categorical_evaluation_metrics
    (df : list (gmap string cell)) (a p : string) :
  match perform_categorical_evaluation df a p with
  | EvalError _ => True
  | EvalReport cm m =>
      Akurasi m == inject_Z (TP cm + TN cm) / inject_Z (total cm) /\
      0 <= Akurasi m <= 1 /\ 0 <= Presisi m <= 1 /\ 0 <= Recall m <= 1 /\
      ((TP cm + FP cm = 0)%Z -> Presisi m = 0) /\
      ((TP cm + FN cm = 0)%Z -> Recall m = 0)
  end.
Proof.
  rewrite perform_categorical_evaluation_unfold. cbv zeta.
  destruct (count_rows_total a p df (mk_confusion 0 0 0 0))
    as (_ & H1 & H2 & H3 & H4).
  cbn [TP TN FP FN] in H1, H2, H3, H4.
  set (cm := count_rows a p df (mk_confusion 0 0 0 0)) in *.
  destruct (total cm =? 0)%Z eqn:E; [exact I|].
  apply Z.eqb_neq in E. unfold total in *. cbn [Akurasi Presisi Recall].
  split; [reflexivity|]. split; [apply count_ratio_unit; lia|].
  split; [|split; [|split]].
  - destruct (0 <? TP cm + FP cm)%Z eqn:E1.
    + apply Z.ltb_lt in E1. apply count_ratio_unit; lia.
    + split; discriminate.
  - destruct (0 <? TP cm + FN cm)%Z eqn:E2.
    + apply Z.ltb_lt in E2. apply count_ratio_unit; lia.
    + split; discriminate.
  - intros H. rewrite H. reflexivity.
  - intros H. rewrite H. reflexivity.
Qed.

Lemma count_row_swap (a p : string) (row : gmap string cell)
    (cm : confusion_matrix) :
  count_row p a row (swap_counts cm)
  = match count_row a p row cm with
    | Ret cm' => Ret (swap_counts cm')
    | Raise e => Raise e
    end.
Proof.
  unfold count_row.
  destruct (getitem_cases row a) as [(va & _ & ->) | [_ ->]];
  destruct (getitem_cases row p) as [(vp & _ & ->) | [_ ->]];
    cbn [mbind outcome_bind mret outcome_ret]; try reflexivity.
  destruct cm as [tp tn fp fn].
  destruct (bool_decide (lower (strip (py_str vp)) = positive_class)),
    (bool_decide (lower (strip (py_str va)) = positive_class)); reflexivity.
Qed.

Lemma count_rows_swap (a p : string) (df : list (gmap string cell))
    (cm : confusion_matrix) :
  count_rows p a df (swap_counts cm) = swap_counts (count_rows a p df cm).
Proof.
  revert cm. induction df as [|row df IH]; intros cm; [reflexivity|].
  cbn [count_rows]. rewrite count_row_swap.
  destruct (count_row a p row cm) as [cm'|e]; apply IH.
Qed.

(** X23: exchanging the roles of the two columns exchanges false positives
    with false negatives and precision with recall, and leaves the true
    positives, the true negatives, the accuracy and the error result as
    they are. *)
Theorem perform_categorical_evaluation_swap
    (df : list (gmap string cell)) (a p : string) :
  perform_categorical_evaluation df p a
  = swap_evaluation (perform_categorical_evaluation df a p).
Proof.
  rewrite !perform_categorical_evaluation_unfold. cbv zeta.
  pose proof (count_rows_swap a p df (mk_confusion 0 0 0 0)) as Hsw.
  change (swap_counts (mk_confusion 0 0 0 0)) with (mk_confusion 0 0 0 0)
    in Hsw.
  rewrite Hsw.
  destruct (count_rows a p df (mk_confusion 0 0 0 0)) as [tp tn fp fn].
  unfold total, swap_counts. cbn [TP TN FP FN].
  replace (tp + tn + fn + fp)%Z with (tp + tn + fp + fn)%Z by lia.
  destruct (tp + tn + fp + fn =? 0)%Z; reflexivity.
Qed.

Lemma count_row_agree (a p : string) (row : gmap string cell)
    (cm : confusion_matrix) :
  row !! a = row !! p -> FP cm = 0%Z -> FN cm = 0%Z ->
  match count_row a p row cm with
  | Ret cm' => FP cm' = 0%Z /\ FN cm' = 0%Z
  | Raise _ => True
  end.
Proof.
  intros Hrow H1 H2. unfold count_row, getitem. rewrite <- Hrow.
  destruct (row !! a) as [v|]; [|exact I].
  cbn [mbind outcome_bind mret outcome_ret].
  destruct cm as [tp tn fp fn]. cbn in H1, H2. subst fp fn.
  destruct (bool_decide (lower (strip (py_str v)) = positive_class));
    cbn; auto.
Qed.

Lemma count_rows_agree (a p : string) (df : list (gmap string cell))
    (cm : confusion_matrix) :
  Forall (fun row => row !! a = row !! p) df ->
  FP cm = 0%Z -> FN cm = 0%Z ->
  FP (count_rows a p df cm) = 0%Z /\ FN (count_rows a p df cm) = 0%Z.
Proof.
  intros Hdf. revert cm.
  induction Hdf as [|row df Hrow _ IH]; intros cm H1 H2; [auto|].
  cbn [count_rows].
  pose proof (count_row_agree a p row cm Hrow H1 H2) as Hr.
  destruct (count_row a p row cm) as [cm'|e]; [|apply IH; assumption].
  destruct Hr. apply IH; assumption.
Qed.

(** X24: when every row holds the same cell under both columns (a perfect
    prediction) the evaluator reports no false positive and no false
    negative, and an accuracy of 1. *)
Theorem perform_categorical_evaluation_perfect
    (df : list (gmap string cell)) (a p : string) :
  Forall (fun row => row !! a = row !! p) df ->
  match perform_categorical_evaluation df a p with
  | EvalError _ => filter (valid_row a p) df = []
  | EvalReport cm m => FP cm = 0%Z /\ FN cm = 0%Z /\ Akurasi m == 1
  end.
Proof.
  intros Hdf. rewrite perform_categorical_evaluation_unfold. cbv zeta.
  destruct (count_rows_agree a p df (mk_confusion 0 0 0 0) Hdf eq_refl eq_refl)
    as [H1 H2].
  destruct (count_rows_total a p df (mk_confusion 0 0 0 0)) as (Ht & _).
  change (total (mk_confusion 0 0 0 0)) with 0%Z in Ht.
  set (cm := count_rows a p df (mk_confusion 0 0 0 0)) in *.
  destruct (total cm =? 0)%Z eqn:E.
  - apply Z.eqb_eq in E.
    destruct (filter (valid_row a p) df); [reflexivity|].
    cbn [length] in Ht. lia.
  - apply Z.eqb_neq in E. split; [exact H1|]. split; [exact H2|].
    cbn [Akurasi]. unfold total in *. rewrite H1, H2, !Z.add_0_r in *.
    apply Qmult_inv_r. intros H. apply E.
    apply inject_Z_injective. exact H.
Qed.

Lemma perform_categorical_evaluation_perfect_witness :
  let df := [labelled "Optimal" "Optimal"; labelled "Normal" "Normal"] in
  Forall (fun row => row !! "actual" = row !! "predicted") df /\
  match perform_categorical_evaluation df "actual" "predicted" with
  | EvalError _ => filter (valid_row "actual" "predicted") df = []
  | EvalReport cm m => FP cm = 0%Z /\ FN cm = 0%Z /\ Akurasi m == 1
  end.
Proof.
  intros df.
  assert (H : Forall (fun row => row !! "actual" = row !! "predicted") df).
  { repeat constructor; vm_compute; reflexivity. }
  split; [exact H|].
  exact (perform_categorical_evaluation_perfect df "actual" "predicted" H).
Defined.

(** *** Label normalisation *)

Lemma append_cons (c : ascii) (s t : string) :
  String c s +:+ t = String c (s +:+ t).
Proof. reflexivity. Qed.

Lemma append_nil_r (s : string) : s +:+ "" = s.
Proof.
  induction s as [|c s IH]; [reflexivity|].
  rewrite append_cons, IH. reflexivity.
Qed.

Lemma append_assoc (s t u : string) : (s +:+ t) +:+ u = s +:+ (t +:+ u).
Proof.
  induction s as [|c s IH]; [reflexivity|].
  rewrite !append_cons, IH. reflexivity.
Qed.

Lemma rev_app_append (s acc : string) :
  String.rev_app s acc = String.rev s +:+ acc.
Proof.
  unfold String.rev. revert acc. induction s as [|c s IH]; intros acc.
  - reflexivity.
  - cbn. rewrite (IH (String c acc)), (IH (String c "")), append_assoc.
    reflexivity.
Qed.

Lemma rev_append (s t : string) :
  String.rev (s +:+ t) = String.rev t +:+ String.rev s.
Proof.
  induction s as [|c s IH].
  - change (String.rev t = String.rev t +:+ "").
    rewrite append_nil_r. reflexivity.
  - change (String.rev (String c s +:+ t))
      with (String.rev_app (s +:+ t) (String c "")).
    change (String.rev (String c s)) with (String.rev_app s (String c "")).
    rewrite !rev_app_append, IH, append_assoc. reflexivity.
Qed.

Lemma all_space_append (s t : string) :
  all_space (s +:+ t) = all_space s && all_space t.
Proof.
  induction s as [|c s IH]; [reflexivity|]. rewrite append_cons. cbn.
  rewrite IH. destruct (py_isspace c); reflexivity.
Qed.

Lemma all_space_rev (s : string) : all_space (String.rev s) = all_space s.
Proof.
  induction s as [|c s IH]; [reflexivity|].
  change (String.rev (String c s)) with (String.rev_app s (String c "")).
  rewrite rev_app_append, all_space_append, IH. cbn.
  destruct (py_isspace c), (all_space s); reflexivity.
Qed.

Lemma lstrip_space (ws s : string) :
  all_space ws = true -> lstrip (ws +:+ s) = lstrip s.
Proof.
  induction ws as [|c ws IH]; [reflexivity|]. rewrite append_cons. cbn.
  destruct (py_isspace c); [|discriminate]. exact IH.
Qed.

Lemma lstrip_append (s t : string) :
  lstrip (s +:+ t)
  = match lstrip s with
    | EmptyString => lstrip t
    | u => u +:+ t
    end.
Proof.
  induction s as [|c s IH]; [reflexivity|]. rewrite append_cons. cbn.
  destruct (py_isspace c); [exact IH|reflexivity].
Qed.

(** [strip] takes off any ASCII white space around a label. *)
Lemma strip_padding (ws1 ws2 s : string) :
  all_space ws1 = true -> all_space ws2 = true ->
  strip (ws1 +:+ s +:+ ws2) = strip s.
Proof.
  intros H1 H2. unfold strip.
  rewrite (lstrip_space ws1 _ H1), lstrip_append.
  destruct (lstrip s) as [|c u] eqn:E.
  - pose proof (lstrip_space ws2 "" H2) as H. rewrite append_nil_r in H.
    rewrite H. reflexivity.
  - rewrite rev_append, lstrip_space; [reflexivity|].
    rewrite all_space_rev. exact H2.
Qed.

Lemma upper_ascii_space (c : ascii) : py_isspace (upper_ascii c) = py_isspace c.
Proof.
  destruct c as [[] [] [] [] [] [] [] []]; reflexivity.
Qed.

Lemma lower_upper_ascii (c : ascii) : lower_ascii (upper_ascii c) = lower_ascii c.
Proof.
  destruct c as [[] [] [] [] [] [] [] []]; reflexivity.
Qed.

Lemma upper_append (s t : string) : upper (s +:+ t) = upper s +:+ upper t.
Proof.
  induction s as [|c s IH]; [reflexivity|].
  rewrite append_cons. cbn. rewrite IH. reflexivity.
Qed.

Lemma upper_rev (s : string) : upper (String.rev s) = String.rev (upper s).
Proof.
  induction s as [|c s IH]; [reflexivity|].
  change (String.rev (String c s)) with (String.rev_app s (String c "")).
  change (String.rev (upper (String c s)))
    with (String.rev_app (upper s) (String (upper_ascii c) "")).
  rewrite !rev_app_append, upper_append, IH. reflexivity.
Qed.

Lemma lstrip_upper (s : string) : lstrip (upper s) = upper (lstrip s).
Proof.
  induction s as [|c s IH]; [reflexivity|]. cbn.
  rewrite upper_ascii_space. destruct (py_isspace c); [exact IH|reflexivity].
Qed.

Lemma lower_upper (s : string) : lower (upper s) = lower s.
Proof.
  induction s as [|c s IH]; [reflexivity|]. cbn.
  rewrite lower_upper_ascii, IH. reflexivity.
Qed.

Lemma normalise_upper (s : string) : lower (strip (upper s)) = lower (strip s).
Proof.
  unfold strip.
  rewrite lstrip_upper, <- upper_rev, lstrip_upper, <- upper_rev.
  apply lower_upper.
Qed.

Lemma normalise_relabel_cell (g : string -> string) (c : cell) :
  (forall s, lower (strip (g s)) = lower (strip s)) ->
  lower (strip (py_str (relabel_cell g c))) = lower (strip (py_str c)).
Proof. intros Hg. destruct c as [s|]; [apply Hg|reflexivity]. Qed.

Lemma count_row_relabel (g : string -> string) (a p : string)
    (row : gmap string cell) (cm : confusion_matrix) :
  (forall s, lower (strip (g s)) = lower (strip s)) ->
  count_row a p (relabel_cell g <$> row) cm = count_row a p row cm.
Proof.
  intros Hg. unfold count_row, getitem. rewrite !lookup_fmap.
  destruct (row !! a) as [va|]; [|reflexivity].
  destruct (row !! p) as [vp|]; [|reflexivity].
  cbn [fmap option_fmap option_map mbind outcome_bind mret outcome_ret].
  rewrite !(normalise_relabel_cell g _ Hg). reflexivity.
Qed.

Lemma count_rows_relabel (g : string -> string) (a p : string)
    (df : list (gmap string cell)) (cm : confusion_matrix) :
  (forall s, lower (strip (g s)) = lower (strip s)) ->
  count_rows a p (relabel g df) cm = count_rows a p df cm.
Proof.
  intros Hg. revert cm. induction df as [|row df IH]; intros cm; [reflexivity|].
  cbn [relabel map count_rows]. rewrite (count_row_relabel g a p row cm Hg).
  destruct (count_row a p row cm); apply IH.
Qed.

(** X25: the evaluator compares labels without regard to surrounding white
    space and to the case of ASCII letters: writing every text cell of the
    data frame in capitals and padding it with ASCII white space on either
    side leaves the result unchanged. *)
Theorem perform_categorical_evaluation_normalises
    (df : list (gmap string cell)) (a p ws1 ws2 : string) :
  all_space ws1 = true -> all_space ws2 = true ->
  perform_categorical_evaluation
    (relabel (fun s => ws1 +:+ upper s +:+ ws2) df) a p
  = perform_categorical_evaluation df a p.
Proof.
  intros H1 H2. rewrite !perform_categorical_evaluation_unfold. cbv zeta.
  rewrite count_rows_relabel; [reflexivity|].
  intros s. rewrite (strip_padding ws1 ws2 (upper s) H1 H2).
  apply normalise_upper.
Qed.

Lemma perform_categorical_evaluation_normalises_witness :
  let df := [labelled "Optimal" "optimal"; labelled "Normal" "Optimal"] in
  let ws1 := String "009" " " in
  let ws2 := String " " (String "010" "") in
  (all_space ws1 = true /\ all_space ws2 = true) /\
  perform_categorical_evaluation
    (relabel (fun s => ws1 +:+ upper s +:+ ws2) df) "actual" "predicted"
  = perform_categorical_evaluation df "actual" "predicted".
Proof.
  intros df ws1 ws2.
  assert (H1 : all_space ws1 = true) by reflexivity.
  assert (H2 : all_space ws2 = true) by reflexivity.
  split; [auto|].
  exact (perform_categorical_evaluation_normalises df "actual" "predicted"
           ws1 ws2 H1 H2).
Defined.

(** ** Pipeline: the values the score takes *)

Lemma round2_hundredths_1_2 (v : Q) :
  1 <= v <= 2 ->
  exists n : Z, round2 v = inject_Z n / 100 /\ (100 <= n <= 200)%Z.
Proof.
  intros Hv. pose proof (round2_between_1_2 v Hv) as [Hlo Hhi].
  unfold round2 in *. set (n := round_half_even (v * 100)) in *.
  exists n. split; [reflexivity|].
  unfold Qdiv in Hlo, Hhi. change (/ 100) with (1 # 100) in Hlo, Hhi.
  assert (H1 : 100 <= inject_Z n) by lra.
  assert (H2 : inject_Z n <= 200) by lra.
  change 100 with (inject_Z 100) in H1. change 200 with (inject_Z 200) in H2.
  rewrite <- Zle_Qle in H1, H2. lia.
Qed.

(** X26: the score of an observation is a whole number of hundredths: it is
    0 or one of 1.00, 1.01, ..., 2.00. *)
Theorem get_z_result_hundredths (ph tds water_temp : Q) :
  exists (r : Q) (n : Z),
    get_z_result (observation ph tds water_temp) = Ret (Num r) /\
    r == inject_Z n / 100 /\ (n = 0%Z \/ (100 <= n <= 200)%Z).
Proof.
  destruct (tds_fuzzify tds) as (m1 & E1 & U1 & _).
  destruct (ph_fuzzify ph) as (m2 & E2 & U2 & _).
  destruct (temp_fuzzify water_temp) as (m3 & E3 & U3 & _).
  rewrite (get_z_result_observation ph tds water_temp m1 m2 m3 E1 U1 E2 U2 E3 U3).
  destruct (graded_firings_of _ (spec_fire_graded m1 m2 m3 U1 U2 U3))
    as (l & -> & Hl).
  destruct (graded_sums l Hl) as (H0 & H1 & H2).
  destruct (defuzzification_firings l) as [Hz Hnz].
  destruct (Qeq_dec (strength_sum l) 0) as [E|E].
  - exists 0, 0%Z. split; [exact (Hz E)|]. split; [reflexivity|left; reflexivity].
  - assert (Hpos : 0 < strength_sum l) by lra.
    destruct (round2_hundredths_1_2 (weighted_sum l / strength_sum l))
      as (n & Hn & Hrange).
    { split; [apply Qle_shift_div_l|apply Qle_shift_div_r]; lra. }
    exists (round2 (weighted_sum l / strength_sum l)), n.
    split; [exact (Hnz E)|]. split; [rewrite Hn; reflexivity|right; exact Hrange].
Qed.

(** ** Pipeline: the score and the rules that fire *)

Lemma strength_sum_zero_all (l : list (Q * Z)) :
  Forall (fun so => 0 <= fst so) l -> strength_sum l == 0 ->
  Forall (fun so => fst so == 0) l.
Proof.
  induction 1 as [|[s o] l Hs Hl IH]; intros Hsum; [constructor|].
  pose proof (strength_sum_nonneg l Hl) as Hn. simpl in *.
  constructor; [simpl; lra|]. apply IH. lra.
Qed.

Lemma strength_sum_pos_exists (l : list (Q * Z)) :
  Forall (fun so => 0 <= fst so) l -> 0 < strength_sum l ->
  Exists (fun so => 0 < fst so) l.
Proof.
  induction 1 as [|[s o] l Hs Hl IH]; intros Hsum; simpl in *; [lra|].
  destruct (Qlt_le_dec 0 s) as [Hpos|Hle].
  - apply Exists_cons_hd. exact Hpos.
  - apply Exists_cons_tl. apply IH. lra.
Qed.

Lemma firings_of_all_zero (l : list (Q * Z)) :
  Forall (fun f => exists s, firing_strength f = Num s /\ s == 0)
         (firings_of l)
  <-> Forall (fun so => fst so == 0) l.
Proof.
  unfold firings_of. rewrite Forall_fmap. apply Forall_iff.
  intros [s o]. cbn. split.
  - intros (s' & Hs & Hz). injection Hs as ->. exact Hz.
  - intros Hz. exists s. split; [reflexivity|exact Hz].
Qed.

Lemma firings_of_some_positive (l : list (Q * Z)) :
  Exists (fun f => exists s, firing_strength f = Num s /\ 0 < s)
         (firings_of l)
  <-> Exists (fun so => 0 < fst so) l.
Proof.
  unfold firings_of. rewrite !Exists_exists. split.
  - intros (f & Hin & s & Hs & Hpos).
    apply list_elem_of_fmap in Hin. destruct Hin as (so & -> & Hso).
    exists so. split; [exact Hso|]. cbn in Hs. injection Hs as ->.
    exact Hpos.
  - intros (so & Hin & Hpos).
    exists (mk_firing (Num (fst so)) (snd so)). split.
    + apply list_elem_of_fmap. exists so. split; [reflexivity|exact Hin].
    + exists (fst so). split; [reflexivity|exact Hpos].
Qed.

(** C10: for every observation with numeric pH, TDS and temperature,
    [get_z_result] returns a number that is either exactly 0 or lies in
    [[1, 2]]; it is 0 exactly when no rule fires (every firing strength
    [fuzzy_rules] returns for the fuzzified inputs is 0), and it lies in
    [[1, 2]] exactly when some rule fires (some strength is positive). *)
Theorem get_z_result_range (ph tds water_temp : Q) :
  exists tds_mf ph_mf temp_mf rs r,
    tds_membership tds = Ret tds_mf /\
    ph_membership ph = Ret ph_mf /\
    temp_membership water_temp = Ret temp_mf /\
    fuzzy_rules tds_mf ph_mf temp_mf = Ret rs /\
    get_z_result (observation ph tds water_temp) = Ret (Num r) /\
    (r = 0 \/ 1 <= r <= 2) /\
    (r = 0 <->
     Forall (fun f => exists s, firing_strength f = Num s /\ s == 0) rs) /\
    (1 <= r <= 2 <->
     Exists (fun f => exists s, firing_strength f = Num s /\ 0 < s) rs).
Proof.
  destruct (tds_membership_unit tds) as (m1 & E1 & U1).
  destruct (ph_membership_unit ph) as (m2 & E2 & U2).
  destruct (temp_membership_unit water_temp) as (m3 & E3 & U3).
  pose proof (fuzzy_rules_spec m1 m2 m3
                (unit_degrees_degree_mapping _ U1)
                (unit_degrees_degree_mapping _ U2)
                (unit_degrees_degree_mapping _ U3)) as E4.
  pose proof (get_z_result_steps _ _ _ _ _ _ _ _
                (observation_tds ph tds water_temp) E1
                (observation_ph ph tds water_temp) E2
                (observation_water_temp ph tds water_temp) E3 E4) as E.
  destruct (graded_firings_of _ (spec_fire_graded m1 m2 m3 U1 U2 U3))
    as (l & El & Hl).
  rewrite El in E, E4.
  assert (Hnn : Forall (fun so : Q * Z => 0 <= fst so) l).
  { eapply Forall_impl; [exact Hl|]. intros so [H _]. exact H. }
  destruct (graded_sums l Hl) as (H0 & H1 & H2).
  destruct (defuzzification_firings l) as [Hz Hnz].
  exists m1, m2, m3, (firings_of l).
  destruct (Qeq_dec (strength_sum l) 0) as [Hs|Hs].
  - exists 0. do 4 (split; [assumption|]).
    split; [rewrite E; exact (Hz Hs)|]. split; [left; reflexivity|]. split.
    + split; [intros _|reflexivity].
      apply firings_of_all_zero. apply strength_sum_zero_all; assumption.
    + split; [intros [Hc _]; exfalso; lra|].
      intros Hex. apply firings_of_some_positive in Hex.
      apply Exists_exists in Hex. destruct Hex as (so & Hin & Hpos).
      pose proof (strength_sum_pos l so Hnn Hin Hpos). exfalso. lra.
  - assert (Hpos : 0 < strength_sum l) by lra.
    assert (Hr : 1 <= round2 (weighted_sum l / strength_sum l) <= 2).
    { apply round2_between_1_2. split.
      - apply Qle_shift_div_l; [exact Hpos|]. lra.
      - apply Qle_shift_div_r; [exact Hpos|]. lra. }
    exists (round2 (weighted_sum l / strength_sum l)).
    do 4 (split; [assumption|]).
    split; [rewrite E; exact (Hnz Hs)|]. split; [right; exact Hr|]. split.
    + split.
      * intros Hr0. rewrite Hr0 in Hr. exfalso. lra.
      * intros Hall. apply firings_of_all_zero in Hall.
        exfalso. apply Hs. apply strength_sum_zero. exact Hall.
    + split; [intros _|intros _; exact Hr].
      apply firings_of_some_positive.
      apply strength_sum_pos_exists; assumption.
Qed.
